(** * Anonymous one-liner API ([functions/api/messages.js])

    A shallow embedding of the two observed variants of the Cloudflare
    Pages handler [onRequest] and of its helpers, followed by the
    properties of the rate limiter, of text normalisation and validation,
    and of the read path.

    Conventions of the embedding:
    - a JavaScript string is its sequence of UTF-16 code units, so that
      [length] is the [.length] the handler tests;
    - timestamps ([Date.now()], [last_ts], [created_at]) are integers;
    - the D1 database is an explicit state threaded through the handler,
      and a storage call may reject (the handler has [try]/[catch] for it). *)

From Stdlib Require Import ZArith String Ascii DecimalString.
From Stdlib.Strings Require Import Byte.
From stdpp Require Import base option list gmap sorting.

Local Open Scope Z_scope.

(** ** JavaScript strings *)

(** A UTF-16 code unit. *)
Abbreviation code_unit := N.

(** A JavaScript string. *)
Abbreviation jsstring := (list N).

(** A literal of the source, as the code units of its (ASCII) characters. *)
Fixpoint js (s : string) : jsstring :=
  match s with
  | EmptyString => []
  | String c s' => N_of_ascii c :: js s'
  end.

Arguments js : simpl never.

(** The set of code units that both [String.prototype.trim] and the regular
    expression class [\s] treat as white space (ECMAScript [WhiteSpace] and
    [LineTerminator]): TAB, LF, VT, FF, CR, SP, NBSP, U+1680,
    U+2000..U+200A, U+2028, U+2029, U+202F, U+205F, U+3000, U+FEFF. *)
Definition is_whitespace (c : code_unit) : bool :=
  ((9 <=? c) && (c <=? 13) ||
   (c =? 32) || (c =? 160) || (c =? 5760) ||
   (8192 <=? c) && (c <=? 8202) ||
   (c =? 8232) || (c =? 8233) || (c =? 8239) || (c =? 8287) ||
   (c =? 12288) || (c =? 65279))%N.

(** The replacement string [" "] of [normalizeText]. *)
Definition SPACE : code_unit := 32%N.

(** [s.trimStart()]. *)
Fixpoint trimStart (s : jsstring) : jsstring :=
  match s with
  | [] => []
  | c :: s' => if is_whitespace c then trimStart s' else s
  end.

(** [s.trimEnd()]: a white-space unit is dropped when nothing is kept
    after it. *)
Fixpoint trimEnd (s : jsstring) : jsstring :=
  match s with
  | [] => []
  | c :: s' =>
      match trimEnd s' with
      | [] => if is_whitespace c then [] else [c]
      | t => c :: t
      end
  end.

(** [s.trim()]. *)
Definition trim (s : jsstring) : jsstring := trimEnd (trimStart s).

(** The scan of [s.replace(/\s+/g, " ")]: the global, greedy match of
    [\s+] is every maximal run of white space; [in_run] tells that the
    unit before the current one belonged to the run being replaced, whose
    single [" "] has been emitted already. *)
Fixpoint replace_runs (in_run : bool) (s : jsstring) : jsstring :=
  match s with
  | [] => []
  | c :: s' =>
      if is_whitespace c
      then if in_run then replace_runs true s'
           else SPACE :: replace_runs true s'
      else c :: replace_runs false s'
  end.

(** [s.replace(/\s+/g, " ")]. *)
Definition replace_whitespace (s : jsstring) : jsstring := replace_runs false s.

(** [String(n)] for an integer [n]: its decimal numeral, which is what
    JavaScript prints for an integer below [10^21] in magnitude. *)
Definition Z_to_string (n : Z) : jsstring :=
  js (NilZero.string_of_int (Z.to_int n)).

(** ** JavaScript values, as [request.json()] produces them *)

(** What the handler observes of a JavaScript number: its truthiness and
    its [String(_)] rendering. *)
Class JSNumber (number : Type) := {
  number_truthy : number -> bool;
  number_to_string : number -> jsstring
}.

(** Integers are numbers: [0] is falsy, and [String] renders in decimal. *)
#[export] Instance Z_JSNumber : JSNumber Z := {|
  number_truthy n := negb (n =? 0);
  number_to_string := Z_to_string
|}.

(** The values of JavaScript that JSON text parses to, and [undefined]. An
    object is the list of its own properties, in insertion order, each
    key once. *)
#[warnings="-register-all"]
Inductive JSValue {number : Type} : Type :=
| JUndefined
| JNull
| JBool (b : bool)
| JNumber (n : number)
| JString (s : jsstring)
| JArray (elements : list JSValue)
| JObject (properties : list (jsstring * JSValue)).
Arguments JSValue : clear implicits.

Section Values.
Context {number : Type} `{JSNumber number}.

(** [ToBoolean]: the test of [v || w], [!v] and [if (v)]. *)
Definition truthy (v : JSValue number) : bool :=
  match v with
  | JUndefined | JNull => false
  | JBool b => b
  | JNumber n => number_truthy n
  | JString s => match s with [] => false | _ => true end
  | JArray _ | JObject _ => true
  end.

(** [v || w]. *)
Definition js_or (v w : JSValue number) : JSValue number :=
  if truthy v then v else w.

(** [xs.join(sep)] on strings already rendered. *)
Fixpoint join (sep : jsstring) (xs : list jsstring) : jsstring :=
  match xs with
  | [] => []
  | [x] => x
  | x :: xs' => x ++ sep ++ join sep xs'
  end.

(** Whether an object has an own property [key]. *)
Fixpoint has_own_property (key : jsstring) (properties : list (jsstring * JSValue number))
  : bool :=
  match properties with
  | [] => false
  | (k, _) :: rest => bool_decide (k = key) || has_own_property key rest
  end.

(** [String(v)], or [None] when it throws a [TypeError].

    An array renders as its elements joined by [","], where [null] and
    [undefined] elements render as the empty string and the others as
    their own [String(_)], which may throw.

    An object is converted by [toString], then [valueOf]. An object parsed
    from JSON inherits both from [Object.prototype] unless it has an own
    property of that name, and an own property parsed from JSON is never
    callable. So an object without an own [toString] renders as
    ["[object Object]"]; one with an own [toString] has no callable
    [toString], and its [valueOf], own or inherited, yields no primitive:
    the conversion throws. *)
Fixpoint ToString (v : JSValue number) : option jsstring :=
  match v with
  | JUndefined => Some (js "undefined")
  | JNull => Some (js "null")
  | JBool true => Some (js "true")
  | JBool false => Some (js "false")
  | JNumber n => Some (number_to_string n)
  | JString s => Some s
  | JArray elements =>
      join (js ",") <$>
        mapM (fun e => match e with
                       | JUndefined | JNull => Some []
                       | _ => ToString e
                       end) elements
  | JObject properties =>
      if has_own_property (js "toString") properties then None
      else Some (js "[object Object]")
  end.

(** The own property [key] of an object's property list. *)
Fixpoint own_property (key : jsstring) (properties : list (jsstring * JSValue number))
  : JSValue number :=
  match properties with
  | [] => JUndefined
  | (k, v) :: rest => if decide (k = key) then v else own_property key rest
  end.

(** [body?.text]: [undefined] when [body] is [null] or [undefined]; a
    primitive or an array parsed from JSON has no property [text]. *)
Definition get_text (body : JSValue number) : JSValue number :=
  match body with
  | JObject properties => own_property (js "text") properties
  | _ => JUndefined
  end.

(** [normalizeText(s)]:
    [String(s || "").trim().replace(/\s+/g, " ")], or [None] when
    [String(_)] throws. *)
Definition normalizeText (s : JSValue number) : option jsstring :=
  str ← ToString (js_or s (JString []));
  Some (replace_whitespace (trim str)).

End Values.

(** ** The platform the handler runs on *)

(** The Web Crypto and encoding services [sha256Hex] calls:
    [new TextEncoder().encode(_)] and [crypto.subtle.digest("SHA-256", _)],
    both on bytes. *)
Class WebCrypto := {
  TextEncoder_encode : jsstring -> list Byte.byte;
  digest_SHA256 : list Byte.byte -> list Byte.byte
}.

(** ** Data model *)

(** A row of [messages], as [SELECT id, text, created_at] returns it. *)
Record Message := {
  id : Z;
  text : jsstring;
  created_at : Z
}.

(** The order of [ORDER BY created_at DESC]: the earlier row of a result is
    at least as recent as the later one. *)
Definition newer_or_equal (a b : Message) : Prop := created_at b <= created_at a.

(** The D1 engine's evaluation of [ORDER BY created_at DESC]: some
    arrangement of the rows in that order; how rows of equal [created_at]
    are arranged is the engine's choice. *)
Class D1Engine := {
  order_by_created_at_desc : list Message -> list Message;
  order_by_Permutation : forall rows, order_by_created_at_desc rows ≡ₚ rows;
  order_by_Sorted : forall rows, Sorted newer_or_equal (order_by_created_at_desc rows)
}.

(** A value thrown by a storage call or by the runtime: an [Error] with its
    [name] and [message]. *)
Record JsError := {
  name : jsstring;
  message : jsstring
}.

(** The places where the handlers make the runtime throw a [TypeError]. *)
Inductive TypeErrorSite :=
| String_of_object      (* String(v): v cannot be converted to a primitive *)
| trim_of_text          (* (body?.text || "").trim(): the value has no trim *)
| prepare_of_DB.        (* env.DB.prepare(...): env.DB is undefined *)

(** The wording of the messages of these errors, which ECMAScript leaves
    to the runtime. *)
Class Runtime := {
  TypeError_message : TypeErrorSite -> jsstring
}.

(** The [TypeError] the runtime throws at [site]. *)
Definition TypeError `{Runtime} (site : TypeErrorSite) : JsError :=
  {| name := js "TypeError"; message := TypeError_message site |}.

(** Modelled from the spec: the schema of the database is not in the
    sources. Table [messages(id PK autoincrement, text, created_at)] is the
    list of its rows in insertion order; table [rate_limits(ip_hash PK,
    last_ts)] is a finite map from [ip_hash] to [last_ts]. [faults] is the
    behaviour of the storage service on the calls to come: each call takes
    the head, [Some e] makes that call reject with [e] and change nothing;
    with no entry left a call succeeds. *)
Record D1 := {
  messages : list Message;
  rate_limits : gmap jsstring Z;
  faults : list (option JsError)
}.

(** [context.env]: the D1 binding, which may be missing, and the secret. *)
Record Env := {
  DB : option D1;
  RATE_LIMIT_SALT : option jsstring
}.

(** [context.request]: [json_body] is what [await request.json()] gives,
    [None] when the body is not JSON text and the call rejects. *)
Record Request {number : Type} := {
  method : jsstring;
  req_headers : list (jsstring * jsstring);
  json_body : option (JSValue number)
}.
Arguments Request : clear implicits.

Record Context {number : Type} := {
  request : Request number;
  env : Env
}.
Arguments Context : clear implicits.

(** The object a response body is the [JSON.stringify] of. *)
Inductive Body :=
| NoBody                                              (* null *)
| OkData (data : list Message)                        (* { ok: true, data } *)
| OkTrue                                              (* { ok: true } *)
| Failure (error : jsstring)                          (* { ok: false, error } *)
| FailureDetail (error detail : jsstring)             (* { ok: false, error, detail } *)
| TooMany (error : jsstring) (retry_after_ms : Z).    (* { ok: false, error, retry_after_ms } *)

Record Response := {
  status : Z;
  headers : list (jsstring * jsstring);
  body : Body
}.

(** ** Storage calls: state and rejection *)

(** How an awaited call ends. *)
Inductive Outcome (A : Type) :=
| Returned (a : A)
| Thrown (e : JsError).
Arguments Returned {A} a.
Arguments Thrown {A} e.

(** A computation on the database that may throw. *)
Definition D1M (A : Type) : Type := D1 -> Outcome A * D1.

#[export] Instance D1M_ret : MRet D1M := fun A a db => (Returned a, db).

#[export] Instance D1M_bind : MBind D1M := fun A B f m db =>
  match m db with
  | (Returned a, db') => f a db'
  | (Thrown e, db') => (Thrown e, db')
  end.

(** [throw e]. *)
Definition throw {A} (e : JsError) : D1M A := fun db => (Thrown e, db).

(** [try { m } catch (e) { return handler(e) }] with a handler that only
    builds a value: the result never throws, and what [m] wrote before it
    threw stays written. *)
Definition try_catch {A} (m : D1M A) (handler : JsError -> A) : D1 -> A * D1 :=
  fun db =>
    match m db with
    | (Returned a, db') => (a, db')
    | (Thrown e, db') => (handler e, db')
    end.

(** The database once the storage service has answered one more call. *)
Definition tick (db : D1) : D1 :=
  {| messages := messages db; rate_limits := rate_limits db; faults := tail (faults db) |}.

(** One call of the storage service running statement [stmt]. *)
Definition d1_call {A} (stmt : D1 -> A * D1) : D1M A := fun db =>
  match head (faults db) with
  | Some (Some e) => (Thrown e, tick db)
  | _ => let '(a, db') := stmt (tick db) in (Returned a, db')
  end.

(** No storage call to come rejects. *)
Definition no_fault (db : D1) : Prop := Forall (fun f => f = None) (faults db).

(** Modelled from the spec: the identifier an insert is given, above every
    identifier in the table ([id] is auto-assigned, unique and increasing
    by insertion). *)
Definition next_id (rows : list Message) : Z :=
  1 + foldr (fun m acc => Z.max (id m) acc) 0 rows.

Section Statements.
Context `{D1Engine}.

(** [SELECT id, text, created_at FROM messages ORDER BY created_at DESC
    LIMIT 10], [.all()]. *)
Definition select_latest_messages : D1M (list Message) :=
  d1_call (fun db => (take 10 (order_by_created_at_desc (messages db)), db)).

(** [SELECT last_ts FROM rate_limits WHERE ip_hash = ?], [.first()]: the
    row's [last_ts], or [None] for the [null] of no row. *)
Definition select_last_ts (ip_hash : jsstring) : D1M (option Z) :=
  d1_call (fun db => (rate_limits db !! ip_hash, db)).

(** [INSERT INTO rate_limits (ip_hash, last_ts) VALUES (?, ?) ON
    CONFLICT(ip_hash) DO UPDATE SET last_ts=excluded.last_ts]. *)
Definition upsert_rate_limit (ip_hash : jsstring) (ts : Z) : D1M unit :=
  d1_call (fun db =>
    (tt, {| messages := messages db;
            rate_limits := <[ip_hash := ts]> (rate_limits db);
            faults := faults db |})).

(** [INSERT INTO messages (text, created_at) VALUES (?, ?)]. *)
Definition insert_message (txt : jsstring) (ts : Z) : D1M unit :=
  d1_call (fun db =>
    (tt, {| messages := messages db ++
                        [{| id := next_id (messages db); text := txt; created_at := ts |}];
            rate_limits := rate_limits db;
            faults := faults db |})).

End Statements.

(** ** Helpers of the handler *)

(** ASCII lower case, under which [Headers] compares names. *)
Definition to_lower (c : code_unit) : code_unit :=
  if ((65 <=? c) && (c <=? 90))%N then (c + 32)%N else c.

(** [headers.get(name)]: the values of the header, joined by [", "], or
    [None] for [null]. *)
Definition headers_get (hs : list (jsstring * jsstring)) (name : jsstring)
  : option jsstring :=
  match List.filter (fun kv => bool_decide (List.map to_lower kv.1 = List.map to_lower name)) hs with
  | [] => None
  | found => Some (join (js ", ") (List.map snd found))
  end.

(** The test [if (s)] on what [headers.get] returned. *)
Definition present (s : option jsstring) : bool :=
  match s with
  | Some (_ :: _) => true
  | _ => false
  end.

Definition ALLOWED_ORIGINS : list jsstring :=
  [ js "https://duanlian.xyz"; js "https://www.duanlian.xyz" ].

(** [getCorsHeaders(request)]. *)
Definition getCorsHeaders {number} (request : Request number) : list (jsstring * jsstring) :=
  match headers_get (req_headers request) (js "Origin") with
  | Some origin =>
      if present (Some origin) && bool_decide (origin ∈ ALLOWED_ORIGINS)
      then [ (js "Access-Control-Allow-Origin", origin);
             (js "Access-Control-Allow-Methods", js "GET,POST,OPTIONS");
             (js "Access-Control-Allow-Headers", js "Content-Type");
             (js "Vary", js "Origin") ]
      else []
  | None => []
  end.

(** [s.split(",")[0]]. *)
Fixpoint split_comma_first (s : jsstring) : jsstring :=
  match s with
  | [] => []
  | c :: s' => if (c =? 44)%N then [] else c :: split_comma_first s'
  end.

(** [getClientIp(request)]. *)
Definition getClientIp {number} (request : Request number) : jsstring :=
  let cfip := headers_get (req_headers request) (js "cf-connecting-ip") in
  if present cfip then default [] cfip
  else
    let xff := headers_get (req_headers request) (js "x-forwarded-for") in
    if present xff then trim (split_comma_first (default [] xff))
    else js "unknown".

(** One digit of [b.toString(16)]. *)
Definition hex_digit (d : N) : code_unit :=
  if (d <? 10)%N then (48 + d)%N else (87 + d)%N.

(** [b.toString(16)] for an element [b] of a [Uint8Array]. *)
Definition toString16 (b : Byte.byte) : jsstring :=
  let n := Byte.to_N b in
  if (n <? 16)%N then [hex_digit n] else [hex_digit (n / 16); hex_digit (n mod 16)].

(** [s.padStart(target, pad)] for a one-unit [pad]. *)
Definition padStart (target : nat) (pad : code_unit) (s : jsstring) : jsstring :=
  replicate (target - length s) pad ++ s.

(** [sha256Hex(input)]. *)
Definition sha256Hex `{WebCrypto} (input : jsstring) : jsstring :=
  let bytes := digest_SHA256 (TextEncoder_encode input) in
  foldl (fun hex b => hex ++ padStart 2 48%N (toString16 b)) [] bytes.

(** [String(e?.message || e)] for a thrown [Error]: its message, or, when
    that is empty, [Error.prototype.toString], which is then the name. *)
Definition error_detail (e : JsError) : jsstring :=
  match message e with
  | [] => name e
  | m => m
  end.

(** [Math.ceil(x / y)] on integers, [y > 0]. *)
Definition ceil_div (x y : Z) : Z := - ((- x) / y).

(** ** The full variant: rate-limited handler *)

Module Full.
Section Handler.
Context {number : Type} `{JSNumber number} `{WebCrypto} `{D1Engine} `{Runtime}.

(** [json(data, status, extraHeaders)]. *)
Definition json (data : Body) (status : Z) (extraHeaders : list (jsstring * jsstring))
  : Response :=
  {| status := status;
     headers := (js "Content-Type", js "application/json; charset=utf-8") :: extraHeaders;
     body := data |}.

Definition WINDOW_MS : Z := 30000.

(** The key under which a request is rate limited: [ipHash]. *)
Definition ipHash (request : Request number) (e : Env) : jsstring :=
  let ip := getClientIp request in
  let salt := if present (RATE_LIMIT_SALT e)
              then default [] (RATE_LIMIT_SALT e)
              else js "PLEASE_SET_RATE_LIMIT_SALT" in
  sha256Hex (ip ++ js "|" ++ salt).

(** The test [rlRow?.last_ts && now - rlRow.last_ts < WINDOW_MS] on the
    result of [.first()]: [null] for no row, and a [last_ts] of [0], are
    both falsy. *)
Definition within_window (rlRow : option Z) (now : Z) : bool :=
  match rlRow with
  | Some last_ts => negb (last_ts =? 0) && (now - last_ts <? WINDOW_MS)
  | None => false
  end.

(** The body of [if (request.method === "GET")]. *)
Definition handle_GET (corsHeaders : list (jsstring * jsstring)) : D1 -> Response * D1 :=
  try_catch
    (results ← select_latest_messages;
     mret (json (OkData results) 200 corsHeaders))
    (fun e => json (FailureDetail (js "DB error on GET") (error_detail e)) 500 corsHeaders).

(** The 429 answer to a request made [now] by a key last recorded at
    [last_ts]. *)
Definition too_many_requests (corsHeaders : list (jsstring * jsstring)) (now last_ts : Z)
  : Response :=
  let retryAfterMs := WINDOW_MS - (now - last_ts) in
  let retryAfterSec := ceil_div retryAfterMs 1000 in
  json (TooMany (js "Too many requests") retryAfterMs) 429
       (corsHeaders ++ [(js "Retry-After", Z_to_string retryAfterSec)]).

(** The test [!text || text.length < 1 || text.length > 50]. *)
Definition invalid_text (text : jsstring) : bool :=
  bool_decide (text = []) || (length text <? 1)%nat || (50 <? length text)%nat.

(** What the POST path does once the rate limit let the request through:
    record the attempt, then parse, normalise, validate and insert. A
    [String(_)] that throws inside [normalizeText] throws here, within the
    [try] of the POST path. *)
Definition record_and_create (request : Request number) (ipHash : jsstring)
    (corsHeaders : list (jsstring * jsstring)) (now : Z) : D1M Response :=
  upsert_rate_limit ipHash now;;
  match json_body request with
  | None => mret (json (Failure (js "Invalid JSON")) 400 corsHeaders)
  | Some body =>
      match normalizeText (get_text body) with
      | None => throw (TypeError String_of_object)
      | Some text =>
          if invalid_text text
          then mret (json (Failure (js "Text must be 1-50 chars")) 400 corsHeaders)
          else insert_message text now;; mret (json OkTrue 200 corsHeaders)
      end
  end.

(** The body of [if (request.method === "POST")]; [now] is what
    [Date.now()] returned. *)
Definition handle_POST (request : Request number) (e : Env)
    (corsHeaders : list (jsstring * jsstring)) (now : Z) : D1 -> Response * D1 :=
  try_catch
    (let ipHash := ipHash request e in
     rlRow ← select_last_ts ipHash;
     match rlRow with
     | Some last_ts =>
         if within_window rlRow now
         then mret (too_many_requests corsHeaders now last_ts)
         else record_and_create request ipHash corsHeaders now
     | None => record_and_create request ipHash corsHeaders now
     end)
    (fun e => json (FailureDetail (js "Server error on POST") (error_detail e)) 500 corsHeaders).

(** [onRequest(context)], with [now] the reading of the clock during the
    invocation. The result is the response and the environment with the
    database as the invocation left it. *)
Definition onRequest (context : Context number) (now : Z) : Response * Env :=
  let request := request context in
  let e := env context in
  let corsHeaders := getCorsHeaders request in
  if bool_decide (method request = js "OPTIONS") then
    ({| status := 200; headers := corsHeaders; body := NoBody |}, e)
  else
    match DB e with
    | None =>
        (json (Failure (js "DB binding not found (env.DB is undefined)")) 500 corsHeaders, e)
    | Some db =>
        let run (m : D1 -> Response * D1) : Response * Env :=
          let '(r, db') := m db in
          (r, {| DB := Some db'; RATE_LIMIT_SALT := RATE_LIMIT_SALT e |}) in
        if bool_decide (method request = js "GET") then run (handle_GET corsHeaders)
        else if bool_decide (method request = js "POST") then
          run (handle_POST request e corsHeaders now)
        else (json (Failure (js "Method not allowed")) 405 corsHeaders, e)
    end.

End Handler.
End Full.

(** ** The simple variant: no rate limit, no [try]/[catch] around storage

    The handler of [functions/api/messages.js], which is also the second
    handler of the unnamed source file. It defines [sha256Hex] and
    [getClientIp] and calls neither. *)

Module Simple.

(** [sha256Hex(input)] as [functions/api/messages.js] writes it:
    [hashArray.map((b) => b.toString(16).padStart(2, "0")).join("")]. *)
Definition sha256Hex `{WebCrypto} (input : jsstring) : jsstring :=
  let hashArray := digest_SHA256 (TextEncoder_encode input) in
  join [] (List.map (fun b => padStart 2 48%N (toString16 b)) hashArray).

Section Handler.
Context {number : Type} `{JSNumber number} `{D1Engine} `{Runtime}.

Definition corsHeaders : list (jsstring * jsstring) :=
  [ (js "Access-Control-Allow-Origin", js "*");
    (js "Access-Control-Allow-Methods", js "GET,POST,OPTIONS");
    (js "Access-Control-Allow-Headers", js "Content-Type") ].

(** [new Response(JSON.stringify(data), { status, headers: {
    "Content-Type": "application/json", ...corsHeaders } })]. *)
Definition respond (data : Body) (status : Z) : Response :=
  {| status := status;
     headers := (js "Content-Type", js "application/json") :: corsHeaders;
     body := data |}.

(** [(body?.text || "").trim()]: only a string has [trim]. *)
Definition trimmed_text (body : JSValue number) : Outcome jsstring :=
  match js_or (get_text body) (JString []) with
  | JString s => Returned (trim s)
  | _ => Thrown (TypeError trim_of_text)
  end.

(** The test [!text || text.length > 50]. *)
Definition invalid_text (text : jsstring) : bool :=
  bool_decide (text = []) || (50 <? length text)%nat.

(** [onRequest(context)]; [now] is what [Date.now()] returns. A storage
    call that rejects, a missing binding and a [text] without [trim] make
    the invocation itself throw. *)
Definition onRequest (context : Context number) (now : Z) : Outcome Response * Env :=
  let request := request context in
  let e := env context in
  let run (m : D1M Response) : Outcome Response * Env :=
    match DB e with
    | None => (Thrown (TypeError prepare_of_DB), e)
    | Some db =>
        let '(r, db') := m db in
        (r, {| DB := Some db'; RATE_LIMIT_SALT := RATE_LIMIT_SALT e |})
    end in
  if bool_decide (method request = js "OPTIONS") then
    (Returned {| status := 200; headers := corsHeaders; body := NoBody |}, e)
  else if bool_decide (method request = js "GET") then
    run (results ← select_latest_messages;
         mret (respond (OkData results) 200))
  else if bool_decide (method request = js "POST") then
    match json_body request with
    | None => (Returned (respond (Failure (js "Invalid JSON")) 400), e)
    | Some body =>
        match trimmed_text body with
        | Thrown err => (Thrown err, e)
        | Returned text =>
            if invalid_text text
            then (Returned (respond (Failure (js "Text must be 1-50 chars")) 400), e)
            else
              let createdAt := now in
              run (insert_message text createdAt;;
                   mret (respond OkTrue 200))
        end
    end
  else (Returned (respond (Failure (js "Method not allowed")) 405), e).

End Handler.
End Simple.

(** ** The reference definition of normalisation *)

Module Reference.

(** Coercion of a missing input to the empty string. *)
Definition coerce (raw : option jsstring) : jsstring := default [] raw.

(** The string without its leading white space. *)
Fixpoint drop_leading (s : jsstring) : jsstring :=
  match s with
  | c :: s' => if is_whitespace c then drop_leading s' else s
  | [] => []
  end.

(** The string without its leading and, read backwards, its trailing
    white space. *)
Definition strip (s : jsstring) : jsstring :=
  reverse (drop_leading (reverse (drop_leading s))).

(** The runs of [s]: its maximal blocks of consecutive units that are all
    white space or all not. *)
Fixpoint runs (s : jsstring) : list jsstring :=
  match s with
  | [] => []
  | c :: s' =>
      match runs s' with
      | (d :: r) :: rest =>
          if Bool.eqb (is_whitespace c) (is_whitespace d)
          then (c :: d :: r) :: rest
          else [c] :: (d :: r) :: rest
      | _ => [[c]]
      end
  end.

(** A run of white space becomes one ASCII space; another run stays. *)
Definition collapse_run (r : jsstring) : jsstring :=
  match r with
  | c :: _ => if is_whitespace c then [SPACE] else r
  | [] => []
  end.

(** Every run of white space collapsed to a single space. *)
Definition collapse (s : jsstring) : jsstring :=
  concat (List.map collapse_run (runs s)).

(** Contract A: coerce, trim, collapse. *)
Definition normalize (raw : option jsstring) : jsstring :=
  collapse (strip (coerce raw)).

End Reference.

(** ** A concrete platform, to run the handlers on examples *)

#[export] Instance newer_or_equal_dec : RelDecision newer_or_equal.
Proof. intros a b. unfold newer_or_equal. apply _. Defined.

#[export] Instance newer_or_equal_total : Total newer_or_equal.
Proof. intros a b. unfold newer_or_equal. lia. Qed.

(** An engine that sorts stably: rows of equal [created_at] stay in
    insertion order. *)
#[export] Instance stable_engine : D1Engine := {|
  order_by_created_at_desc := merge_sort newer_or_equal;
  order_by_Permutation := merge_sort_Permutation newer_or_equal;
  order_by_Sorted := Sorted_merge_sort newer_or_equal
|}.

(** A stand-in for the encoder and the digest (the low byte of each code
    unit, and the bytes themselves): it tells the clients of the examples
    apart. The theorems hold for every encoder and digest. *)
#[export] Instance stand_in_crypto : WebCrypto := {|
  TextEncoder_encode s := List.map (fun c => default x00 (Byte.of_N (c mod 256)%N)) s;
  digest_SHA256 bytes := bytes
|}.

(** The wording of V8, the engine of the Workers runtime. The theorems hold
    for every wording. *)
#[export] Instance V8_wording : Runtime := {|
  TypeError_message site :=
    match site with
    | String_of_object => js "Cannot convert object to primitive value"
    | trim_of_text =>
        js "((intermediate value) || " ++ [34; 34]%N ++ js ").trim is not a function"
    | prepare_of_DB => js "Cannot read properties of undefined (reading 'prepare')"
    end
|}.

(** ** Notions used in the statements *)

#[export] Instance newer_or_equal_transitive : Transitive newer_or_equal.
Proof. intros a b c. unfold newer_or_equal. lia. Qed.

#[export] Instance Message_eq_dec : EqDecision Message.
Proof. solve_decision. Defined.

(** Rows listed newest first: each is at least as recent, by
    [created_at], as every row after it. *)
Definition newest_first (rows : list Message) : Prop :=
  forall i j a b,
    (i < j)%nat -> rows !! i = Some a -> rows !! j = Some b -> created_at b <= created_at a.

(** An ASCII digit. *)
Definition is_digit (c : code_unit) : Prop := (48 <= c <= 57)%N.

(** The database after a request that was let through and wrote [rows]
    into [messages]: [calls] storage calls were answered. *)
Definition recorded (db : D1) (key : jsstring) (now : Z) (rows : list Message)
    (calls : nat) : D1 :=
  {| messages := rows;
     rate_limits := <[key := now]> (rate_limits db);
     faults := drop calls (faults db) |}.

(** The row a successful POST appends. *)
Definition new_message (db : D1) (txt : jsstring) (now : Z) : Message :=
  {| id := next_id (messages db); text := txt; created_at := now |}.

Section Notions.
Context {number : Type} `{JSNumber number}.

(** The input of Contract A, a string or [undefined], as a value. *)
Definition of_raw (raw : option jsstring) : JSValue number :=
  match raw with
  | Some s => JString s
  | None => JUndefined
  end.

(** The context with the table [rate_limits] replaced by [store]. *)
Definition with_rate_limits (store : gmap jsstring Z) (ctx : Context number)
  : Context number :=
  {| request := request ctx;
     env := {| DB := (fun db => {| messages := messages db; rate_limits := store;
                                   faults := faults db |}) <$> DB (env ctx);
               RATE_LIMIT_SALT := RATE_LIMIT_SALT (env ctx) |} |}.

(** How a POST that the limiter let through can end, as response and
    database [r], from the database [db]: a storage call rejected or
    [String(_)] threw (no row written), the request refused in parsing or
    validation after the attempt was recorded, or the message created. *)
Definition let_through_outcome (req : Request number) (key : jsstring) (now : Z)
    (db : D1) (r : Response * D1) : Prop :=
  (status r.1 = 500 /\ messages r.2 = messages db) \/
  (status r.1 = 400 /\
   (json_body req = None \/
    exists parsed text, json_body req = Some parsed /\
                        normalizeText (get_text parsed) = Some text /\
                        Full.invalid_text text = true) /\
   rate_limits r.2 = <[key := now]> (rate_limits db) /\ messages r.2 = messages db) \/
  (status r.1 = 200 /\
   exists parsed text, json_body req = Some parsed /\
                       normalizeText (get_text parsed) = Some text /\
                       Full.invalid_text text = false /\
                       rate_limits r.2 = <[key := now]> (rate_limits db) /\
                       messages r.2 = messages db ++ [new_message db text now]).

End Notions.

(** ** The outcomes of an invocation *)

Section Outcomes.
Context {number : Type} `{JSNumber number} `{WebCrypto} `{D1Engine} `{Runtime}.

(** The ways the POST path of the full variant ends, from database [db]
    for the key [key]: the response, and the database it leaves. Whatever
    the storage service does, a POST ends in one of these. The first is
    the answer of the [catch]: a storage call rejected, or [String(_)]
    threw. *)
Inductive POST_outcome (req : Request number) (key : jsstring)
    (cors : list (jsstring * jsstring)) (now : Z) (db : D1) : Response -> D1 -> Prop :=
| Out_server_error err db' :
    messages db' = messages db ->
    rate_limits db' = rate_limits db \/ rate_limits db' = <[key := now]> (rate_limits db) ->
    POST_outcome req key cors now db
      (Full.json (FailureDetail (js "Server error on POST") (error_detail err)) 500 cors) db'
| Out_throttled last_ts db' :
    rate_limits db !! key = Some last_ts -> last_ts <> 0 -> now - last_ts < 30000 ->
    messages db' = messages db -> rate_limits db' = rate_limits db ->
    POST_outcome req key cors now db (Full.too_many_requests cors now last_ts) db'
| Out_malformed db' :
    json_body req = None ->
    messages db' = messages db -> rate_limits db' = <[key := now]> (rate_limits db) ->
    POST_outcome req key cors now db (Full.json (Failure (js "Invalid JSON")) 400 cors) db'
| Out_invalid parsed text db' :
    json_body req = Some parsed ->
    normalizeText (get_text parsed) = Some text ->
    Full.invalid_text text = true ->
    messages db' = messages db -> rate_limits db' = <[key := now]> (rate_limits db) ->
    POST_outcome req key cors now db
      (Full.json (Failure (js "Text must be 1-50 chars")) 400 cors) db'
| Out_created parsed text db' :
    json_body req = Some parsed ->
    normalizeText (get_text parsed) = Some text ->
    Full.invalid_text text = false ->
    messages db' = messages db ++ [new_message db text now] ->
    rate_limits db' = <[key := now]> (rate_limits db) ->
    POST_outcome req key cors now db (Full.json OkTrue 200 cors) db'.

(** The ways an invocation of the full variant ends: the response, and the
    environment it leaves. *)
Inductive Full_outcome (ctx : Context number) (now : Z) : Response -> Env -> Prop :=
| Out_preflight :
    method (request ctx) = js "OPTIONS" ->
    Full_outcome ctx now
      {| status := 200; headers := getCorsHeaders (request ctx); body := NoBody |} (env ctx)
| Out_no_binding :
    method (request ctx) <> js "OPTIONS" -> DB (env ctx) = None ->
    Full_outcome ctx now
      (Full.json (Failure (js "DB binding not found (env.DB is undefined)")) 500
         (getCorsHeaders (request ctx))) (env ctx)
| Out_listed db db' :
    method (request ctx) = js "GET" -> DB (env ctx) = Some db ->
    messages db' = messages db -> rate_limits db' = rate_limits db ->
    Full_outcome ctx now
      (Full.json (OkData (take 10 (order_by_created_at_desc (messages db)))) 200
         (getCorsHeaders (request ctx)))
      {| DB := Some db'; RATE_LIMIT_SALT := RATE_LIMIT_SALT (env ctx) |}
| Out_list_failed db db' err :
    method (request ctx) = js "GET" -> DB (env ctx) = Some db ->
    messages db' = messages db -> rate_limits db' = rate_limits db ->
    Full_outcome ctx now
      (Full.json (FailureDetail (js "DB error on GET") (error_detail err)) 500
         (getCorsHeaders (request ctx)))
      {| DB := Some db'; RATE_LIMIT_SALT := RATE_LIMIT_SALT (env ctx) |}
| Out_posted db r db' :
    method (request ctx) = js "POST" -> DB (env ctx) = Some db ->
    POST_outcome (request ctx) (Full.ipHash (request ctx) (env ctx))
      (getCorsHeaders (request ctx)) now db r db' ->
    Full_outcome ctx now r {| DB := Some db'; RATE_LIMIT_SALT := RATE_LIMIT_SALT (env ctx) |}
| Out_not_allowed db :
    method (request ctx) <> js "OPTIONS" -> method (request ctx) <> js "GET" ->
    method (request ctx) <> js "POST" -> DB (env ctx) = Some db ->
    Full_outcome ctx now
      (Full.json (Failure (js "Method not allowed")) 405 (getCorsHeaders (request ctx)))
      (env ctx).

End Outcomes.

(** The value of [ok] in the envelope of a body; the preflight answer has
    no body. *)
Definition ok (b : Body) : option bool :=
  match b with
  | NoBody => None
  | OkData _ | OkTrue => Some true
  | Failure _ | FailureDetail _ _ | TooMany _ _ => Some false
  end.

(** A text as the full variant stores it: between 1 and 50 units, and left
    as it is by [trim] and by the replacement of white space. *)
Definition stored_text_ok (m : Message) : Prop :=
  (1 <= length (text m) <= 50)%nat /\
  trim (text m) = text m /\ replace_whitespace (text m) = text m.

Section Serving.
Context {number : Type} `{JSNumber number} `{WebCrypto} `{D1Engine} `{Runtime}.

(** The full variant serving the requests [reqs] one after the other, each
    with the clock reading of its invocation, on the environment the one
    before left: the responses, and the environment after the last. *)
Fixpoint serve (e : Env) (reqs : list (Request number * Z)) : list Response * Env :=
  match reqs with
  | [] => ([], e)
  | (req, now) :: rest =>
      let '(r, e') := Full.onRequest {| request := req; env := e |} now in
      let '(rs, e'') := serve e' rest in
      (r :: rs, e'')
  end.

End Serving.

(** A digit of lower-case hexadecimal: [0]..[9], [a]..[f]. *)
Definition is_lower_hex (c : code_unit) : Prop :=
  (48 <= c <= 57)%N \/ (97 <= c <= 102)%N.

(** ** Concrete requests *)

(** The handlers run on integers as numbers, the stand-in digest and the
    stable engine. *)

Definition empty_db : D1 := {| messages := []; rate_limits := ∅; faults := [] |}.

(** A POST of [{ "text": txt }] from address [ip]. *)
Definition POST_text (ip txt : string) : Request Z :=
  {| method := js "POST";
     req_headers := [(js "cf-connecting-ip", js ip)];
     json_body := Some (JObject [(js "text", JString (js txt))]) |}.

(** A POST from address [ip] whose body is not JSON. *)
Definition POST_malformed (ip : string) : Request Z :=
  {| method := js "POST";
     req_headers := [(js "cf-connecting-ip", js ip)];
     json_body := None |}.

Definition GET_messages : Request Z :=
  {| method := js "GET"; req_headers := []; json_body := None |}.

(** A request arriving at a deployment whose database is [db]. *)
Definition arriving (db : D1) (req : Request Z) : Context Z :=
  {| request := req; env := {| DB := Some db; RATE_LIMIT_SALT := Some (js "s") |} |}.

(** A request arriving after an invocation that ended as [previous]. *)
Definition following {R} (previous : R * Env) (req : Request Z) : Context Z :=
  {| request := req; env := previous.2 |}.

Definition client : string := "10.0.0.7".

(** The examples of the specification: a first POST is created with its
    text normalised, an immediate second one is throttled with a numeric
    [Retry-After], and one after the window is created. *)
Definition hello := Full.onRequest (arriving empty_db (POST_text client "  hello   world ")) 100000.
Definition again_at_once := Full.onRequest (following hello (POST_text client "again")) 100001.
Definition again_later := Full.onRequest (following again_at_once (POST_text client "again")) 130000.


(** Requests on an empty database. *)
Definition first_visit : Context Z := arriving empty_db (POST_text client "hello").
Definition empty_text_visit : Context Z := arriving empty_db (POST_text client "   ").
Definition malformed_visit : Context Z := arriving empty_db (POST_malformed client).

(** Requests of the same client right after [hello], and one made at a
    clock reading behind that of [hello]. *)
Definition second_visit : Context Z := following hello (POST_text client "again").
Definition empty_text_at_once := Full.onRequest (following hello (POST_text client "")) 100001.
Definition behind_the_clock := Full.onRequest (following hello (POST_text client "again")) 90000.

(** A database whose entry for the client holds a [last_ts] of [0]. *)
Definition epoch_db : D1 :=
  {| messages := [];
     rate_limits := {[ Full.ipHash (POST_text client "hello") (env first_visit) := 0 ]};
     faults := [] |}.

(** A request refused at clock reading [0], and the next of that client. *)
Definition refused_at_epoch := Full.onRequest (arriving empty_db (POST_malformed client)) 0.
Definition next_after_epoch :=
  Full.onRequest (following refused_at_epoch (POST_text client "hello")) 5.

(** A database of ten rows, all later than clock reading [1000]; a POST
    made at that reading, and the GET that follows it. *)
Definition ten_newer_rows : list Message :=
  (fun i => {| id := i; text := js "later"; created_at := 2000 + i |})
    <$> [1; 2; 3; 4; 5; 6; 7; 8; 9; 10].

Definition busy_db : D1 := {| messages := ten_newer_rows; rate_limits := ∅; faults := [] |}.

Definition late_post := Full.onRequest (arriving busy_db (POST_text client "hello")) 1000.
Definition get_after_late_post := Full.onRequest (following late_post GET_messages) 1001.

(** A text of 26 characters outside the Basic Multilingual Plane (U+1F600,
    a surrogate pair each): 52 code units. *)
Definition astral_text : jsstring := concat (replicate 26 [55357; 56832]%N).

Definition astral_visit : Context Z :=
  arriving empty_db
    {| method := js "POST";
       req_headers := [(js "cf-connecting-ip", js client)];
       json_body := Some (JObject [(js "text", JString astral_text)]) |}.

(** A request of a method the handlers do not serve. *)
Definition DELETE_visit : Context Z :=
  arriving empty_db {| method := js "DELETE"; req_headers := []; json_body := None |}.

(** A database whose storage service rejects the next call. *)
Definition outage : JsError := {| name := js "Error"; message := js "D1_ERROR" |}.
Definition failing_db : D1 := {| messages := []; rate_limits := ∅; faults := [Some outage] |}.

(** Two POSTs of one client, one millisecond apart, to the simple variant. *)
Definition simple_first := Simple.onRequest (arriving empty_db (POST_text client "hello")) 100000.
Definition simple_second := Simple.onRequest (following simple_first (POST_text client "again")) 100001.

(** The key of the client of the examples. *)
Definition client_key : jsstring := Full.ipHash (POST_text client "hello") (env first_visit).

(** A database that recorded an attempt of the client at clock reading
    [100000], and the deployment that holds it. *)
Definition recorded_db : D1 :=
  {| messages := []; rate_limits := {[ client_key := 100000 ]}; faults := [] |}.

Definition recorded_env : Env := {| DB := Some recorded_db; RATE_LIMIT_SALT := Some (js "s") |}.

(** A POST of the client arriving at that deployment. *)
Definition recorded_visit : Context Z :=
  {| request := POST_text client "again"; env := recorded_env |}.

(** Two retries of the client inside the window. *)
Definition retries : list (Request Z * Z) :=
  [(POST_text client "again", 100001); (POST_text client "once more", 129999)].

(** A database whose storage service answers two calls and rejects the
    third. *)
Definition failing_insert_db : D1 :=
  {| messages := []; rate_limits := ∅; faults := [None; None; Some outage] |}.

(** A GET arriving at a deployment without the binding [env.DB]. *)
Definition unbound_visit : Context Z :=
  {| request := GET_messages; env := {| DB := None; RATE_LIMIT_SALT := Some (js "s") |} |}.

(** A POST of [{ "text": { "toString": 1 } }]. *)
Definition unprintable_body : JSValue Z :=
  JObject [(js "text", JObject [(js "toString", JNumber 1)])].

Definition unprintable_visit : Context Z :=
  arriving empty_db
    {| method := js "POST";
       req_headers := [(js "cf-connecting-ip", js client)];
       json_body := Some unprintable_body |}.

(** A POST of [{ "text": true }]. *)
Definition flag_body : JSValue Z := JObject [(js "text", JBool true)].

Definition flag_visit : Context Z :=
  arriving empty_db
    {| method := js "POST";
       req_headers := [(js "cf-connecting-ip", js client)];
       json_body := Some flag_body |}.

(** Three requests served one after the other. *)
Definition three_requests : list (Request Z * Z) :=
  [(POST_text client "hello", 100000); (POST_text client "again", 100001);
   (GET_messages, 100002)].

(** One storage call of the goal, unfolded, with the three things the
    service can do with it: reject, succeed as scripted, succeed with no
    script left. *)
Ltac storage_call db :=
  unfold mbind, D1M_bind, mret, D1M_ret, select_latest_messages, select_last_ts,
    upsert_rate_limit, insert_message, d1_call;
  simpl;
  destruct (head (faults db)) as [[?|]|]; simpl.

(** * Properties *)

(** ** Normalisation *)

Section Normalisation.
Context {number : Type} `{JSNumber number}.

Lemma ToString_or_empty (raw : option jsstring) :
  ToString (js_or (of_raw raw) (JString [])) = Some (Reference.coerce raw).
Proof. destruct raw as [[|c s]|]; reflexivity. Qed.

Lemma trimStart_drop_leading s : trimStart s = Reference.drop_leading s.
Proof. induction s as [|c s IH]; simpl; [done|]. by rewrite IH. Qed.

Lemma drop_leading_app xs ys :
  Reference.drop_leading (xs ++ ys) =
  match Reference.drop_leading xs with
  | [] => Reference.drop_leading ys
  | t => t ++ ys
  end.
Proof.
  induction xs as [|c xs IH]; simpl; [by destruct (Reference.drop_leading ys)|].
  destruct (is_whitespace c); [apply IH | done].
Qed.

Lemma trimEnd_reverse s :
  trimEnd s = reverse (Reference.drop_leading (reverse s)).
Proof.
  induction s as [|c s IH]; [done|].
  simpl. rewrite IH, reverse_cons, drop_leading_app.
  destruct (Reference.drop_leading (reverse s)) as [|d t] eqn:E.
  - simpl. by destruct (is_whitespace c).
  - rewrite reverse_app. change (reverse [c]) with [c].
    destruct (reverse (d :: t)) as [|x l] eqn:E'; [|done].
    apply (f_equal length) in E'. by rewrite length_reverse in E'.
Qed.

Lemma trim_strip s : trim s = Reference.strip s.
Proof.
  unfold trim, Reference.strip.
  rewrite trimEnd_reverse. do 3 f_equal; apply trimStart_drop_leading.
Qed.

(** The first run of a non-empty string starts with its first unit. *)
Lemma runs_cons c s : exists r rest, Reference.runs (c :: s) = (c :: r) :: rest.
Proof.
  simpl. destruct (Reference.runs s) as [|[|d r] rest]; eauto.
  destruct (Bool.eqb _ _); eauto.
Qed.

Lemma collapse_cons_other c s :
  is_whitespace c = false ->
  Reference.collapse (c :: s) = c :: Reference.collapse s.
Proof.
  intros Hc. unfold Reference.collapse. destruct s as [|d s]; simpl.
  - by rewrite Hc.
  - destruct (runs_cons d s) as (r & rest & E). simpl in E. rewrite E.
    destruct (is_whitespace d) eqn:Hd; rewrite Hc; simpl; rewrite Hc, ?Hd; done.
Qed.

Lemma collapse_cons_whitespace c s :
  is_whitespace c = true ->
  Reference.collapse (c :: s) = SPACE :: Reference.collapse (Reference.drop_leading s).
Proof.
  revert c. induction s as [|d s IH]; intros c Hc.
  - unfold Reference.collapse. simpl. by rewrite Hc.
  - destruct (is_whitespace d) eqn:Hd.
    + cbn [Reference.drop_leading]. rewrite Hd, <- (IH d Hd).
      unfold Reference.collapse.
      destruct (runs_cons d s) as (r & rest & E).
      change (Reference.runs (c :: d :: s)) with
        (match Reference.runs (d :: s) with
         | (d' :: r') :: rest' =>
             if Bool.eqb (is_whitespace c) (is_whitespace d')
             then (c :: d' :: r') :: rest' else [c] :: (d' :: r') :: rest'
         | _ => [[c]]
         end).
      rewrite E, Hc, Hd. simpl. by rewrite Hc, Hd.
    + cbn [Reference.drop_leading]. rewrite Hd.
      unfold Reference.collapse.
      destruct (runs_cons d s) as (r & rest & E).
      change (Reference.runs (c :: d :: s)) with
        (match Reference.runs (d :: s) with
         | (d' :: r') :: rest' =>
             if Bool.eqb (is_whitespace c) (is_whitespace d')
             then (c :: d' :: r') :: rest' else [c] :: (d' :: r') :: rest'
         | _ => [[c]]
         end).
      rewrite E, Hc, Hd. simpl. by rewrite Hc.
Qed.

(** The scan of the regular expression against the runs of the reference:
    inside a run, the scan continues as on the string without its leading
    white space. *)
Lemma replace_runs_collapse s :
  replace_runs false s = Reference.collapse s /\
  replace_runs true s = Reference.collapse (Reference.drop_leading s).
Proof.
  induction s as [|c s [IHf IHt]]; [done|].
  simpl. destruct (is_whitespace c) eqn:Hc.
  - split; [|done]. by rewrite collapse_cons_whitespace, IHt.
  - by rewrite collapse_cons_other, IHf.
Qed.

(** C7. [normalizeText], applied to a string or to [undefined], returns
    the reference [normalize]: the missing input coerced to the empty
    string, leading and trailing white space trimmed, every run of white
    space collapsed to one ASCII space. *)
Theorem normalizeText_refines_normalize (raw : option jsstring) :
  normalizeText (of_raw raw) = Some (Reference.normalize raw).
Proof.
  unfold normalizeText. rewrite ToString_or_empty. simpl. f_equal.
  unfold Reference.normalize, replace_whitespace. rewrite trim_strip.
  apply replace_runs_collapse.
Qed.

(** *** Fixed points of the three passes *)

Lemma trimEnd_cons c s :
  trimEnd (c :: s) = c :: s <-> trimEnd s = s /\ (s = [] -> is_whitespace c = false).
Proof.
  simpl. destruct (trimEnd s) as [|d t] eqn:E.
  - destruct (is_whitespace c); split.
    + discriminate.
    + intros [<- Hc]. by specialize (Hc eq_refl).
    + intros [= <-]. done.
    + by intros [<- _].
  - split.
    + intros [= <-]. done.
    + by intros [<- _].
Qed.

Lemma trimEnd_idempotent s : trimEnd (trimEnd s) = trimEnd s.
Proof.
  induction s as [|c s IH]; [done|].
  simpl. destruct (trimEnd s) as [|d t] eqn:E.
  - destruct (is_whitespace c) eqn:Hc; [done|]. simpl. by rewrite Hc.
  - apply trimEnd_cons. done.
Qed.

Lemma trimStart_idempotent s : trimStart (trimStart s) = trimStart s.
Proof.
  induction s as [|c s IH]; [done|].
  simpl. destruct (is_whitespace c) eqn:Hc; [done|]. simpl. by rewrite Hc.
Qed.

Lemma trimStart_trimEnd s : trimStart s = s -> trimStart (trimEnd s) = trimEnd s.
Proof.
  destruct s as [|c s]; [done|].
  simpl. destruct (is_whitespace c) eqn:Hc.
  - intros E. apply (f_equal length) in E.
    assert (length (trimStart s) <= length s)%nat; [|simpl in E; lia].
    clear. induction s as [|d s IH]; simpl; [lia|].
    destruct (is_whitespace d); simpl; lia.
  - intros _. destruct (trimEnd s); simpl; by rewrite Hc.
Qed.

Lemma trim_fixed s : trimStart (trim s) = trim s /\ trimEnd (trim s) = trim s.
Proof.
  unfold trim. split.
  - apply trimStart_trimEnd, trimStart_idempotent.
  - apply trimEnd_idempotent.
Qed.

Lemma replace_runs_idempotent s :
  (forall b, replace_runs false (replace_runs b s) = replace_runs b s) /\
  replace_runs true (replace_runs true s) = replace_runs true s.
Proof.
  induction s as [|c s [IHf IHt]]; [by split; [intros []|]|].
  split; [intros b|]; simpl; destruct (is_whitespace c) eqn:Hc;
    try destruct b; simpl; rewrite ?Hc; simpl; rewrite ?IHt, ?IHf; done.
Qed.

Lemma replace_runs_nonempty s b :
  trimEnd s = s -> s <> [] -> replace_runs b s <> [].
Proof.
  revert b. induction s as [|c s IH]; intros b Hs Hne; [done|].
  apply trimEnd_cons in Hs as [Hs Hc]. simpl.
  destruct (is_whitespace c) eqn:E; [|done].
  destruct b; [|done]. apply IH; [done|]. intros ->. by specialize (Hc eq_refl).
Qed.

Lemma trimEnd_replace_runs s b :
  trimEnd s = s -> trimEnd (replace_runs b s) = replace_runs b s.
Proof.
  revert b. induction s as [|c s IH]; intros b Hs; [done|].
  apply trimEnd_cons in Hs as [Hs Hc]. simpl.
  destruct (is_whitespace c) eqn:E.
  - assert (s <> []) as Hne by (intros ->; by specialize (Hc eq_refl)).
    destruct b; [by apply IH|].
    apply trimEnd_cons. split; [by apply IH|].
    intros Hnil. by apply replace_runs_nonempty in Hnil.
  - apply trimEnd_cons. split; [by apply IH|]. done.
Qed.

Lemma trimStart_replace_runs s :
  trimStart s = s -> trimStart (replace_runs false s) = replace_runs false s.
Proof.
  destruct s as [|c s]; [done|].
  simpl. destruct (is_whitespace c) eqn:Hc.
  - intros E. apply (f_equal length) in E.
    assert (length (trimStart s) <= length s)%nat; [|simpl in E; lia].
    clear. induction s as [|d s IH]; simpl; [lia|].
    destruct (is_whitespace d); simpl; lia.
  - intros _. simpl. by rewrite Hc.
Qed.

(** What [normalizeText] returns is made by the two passes from the
    string that [String(_)] returned. *)
Lemma normalizeText_Some (v : JSValue number) t :
  normalizeText v = Some t <->
  exists str, ToString (js_or v (JString [])) = Some str /\
              t = replace_whitespace (trim str).
Proof.
  unfold normalizeText. destruct (ToString (js_or v (JString []))) as [str|]; simpl.
  - split; [intros [= <-]; eauto | by intros (? & [= <-] & ->)].
  - split; [done | by intros (? & ? & _)].
Qed.

Lemma normalizeText_string (s : jsstring) :
  normalizeText (JString s : JSValue number) = Some (replace_whitespace (trim s)).
Proof. unfold normalizeText, js_or. by destruct s. Qed.

(** A normalised text is left as it is by each pass of [normalizeText]. *)
Lemma normalizeText_fixed (v : JSValue number) t :
  normalizeText v = Some t ->
  trim t = t /\ replace_whitespace t = t.
Proof.
  intros (str & _ & ->)%normalizeText_Some. unfold replace_whitespace.
  destruct (trim_fixed str) as [Hs He].
  set (u := trim str) in *. split.
  - unfold trim at 1. rewrite trimStart_replace_runs by done.
    by apply trimEnd_replace_runs.
  - apply replace_runs_idempotent.
Qed.

(** C8. Normalisation is idempotent: normalising a normalised text gives
    the same text (and where [String(_)] throws in the first
    normalisation, no text is there to normalise again). *)
Theorem normalizeText_idempotent (v : JSValue number) :
  (t ← normalizeText v; normalizeText (JString t : JSValue number)) = normalizeText v.
Proof.
  destruct (normalizeText v) as [t|] eqn:Hv; simpl; [|done].
  destruct (normalizeText_fixed v t Hv) as [Ht Hr].
  by rewrite normalizeText_string, Ht, Hr.
Qed.

End Normalisation.

(** ** The handlers *)

Section HandlerProperties.
Context {number : Type} `{JSNumber number} `{WebCrypto} `{D1Engine} `{Runtime}.

(** *** Dispatch *)

Lemma POST_is_not_OPTIONS : js "POST" <> js "OPTIONS".
Proof. discriminate. Qed.

Lemma POST_is_not_GET : js "POST" <> js "GET".
Proof. discriminate. Qed.

Lemma GET_is_not_OPTIONS : js "GET" <> js "OPTIONS".
Proof. discriminate. Qed.

Lemma onRequest_POST (ctx : Context number) now db :
  method (request ctx) = js "POST" ->
  DB (env ctx) = Some db ->
  Full.onRequest ctx now =
  ((Full.handle_POST (request ctx) (env ctx) (getCorsHeaders (request ctx)) now db).1,
   {| DB := Some (Full.handle_POST (request ctx) (env ctx)
                    (getCorsHeaders (request ctx)) now db).2;
      RATE_LIMIT_SALT := RATE_LIMIT_SALT (env ctx) |}).
Proof.
  intros Hm Hdb. unfold Full.onRequest. rewrite Hm, Hdb.
  rewrite (bool_decide_eq_false_2 _ POST_is_not_OPTIONS).
  rewrite (bool_decide_eq_false_2 _ POST_is_not_GET).
  rewrite bool_decide_eq_true_2 by done.
  by destruct (Full.handle_POST _ _ _ _ _).
Qed.

Lemma onRequest_GET (ctx : Context number) now db :
  method (request ctx) = js "GET" ->
  DB (env ctx) = Some db ->
  Full.onRequest ctx now =
  ((Full.handle_GET (getCorsHeaders (request ctx)) db).1,
   {| DB := Some (Full.handle_GET (getCorsHeaders (request ctx)) db).2;
      RATE_LIMIT_SALT := RATE_LIMIT_SALT (env ctx) |}).
Proof.
  intros Hm Hdb. unfold Full.onRequest. rewrite Hm, Hdb.
  rewrite (bool_decide_eq_false_2 _ GET_is_not_OPTIONS).
  rewrite bool_decide_eq_true_2 by done.
  by destruct (Full.handle_GET _ _).
Qed.

Lemma onRequest_no_DB (ctx : Context number) now :
  method (request ctx) <> js "OPTIONS" ->
  DB (env ctx) = None ->
  Full.onRequest ctx now =
  (Full.json (Failure (js "DB binding not found (env.DB is undefined)")) 500
     (getCorsHeaders (request ctx)), env ctx).
Proof.
  intros Hm Hdb. unfold Full.onRequest.
  by rewrite (bool_decide_eq_false_2 _ Hm), Hdb.
Qed.

(** *** Storage calls that succeed *)

Lemma no_fault_head db :
  no_fault db -> head (faults db) = None \/ head (faults db) = Some None.
Proof.
  unfold no_fault. destruct (faults db) as [|f fs]; [by left|].
  intros Hf. apply Forall_cons in Hf as [-> _]. by right.
Qed.

Lemma no_fault_tick db : no_fault db -> no_fault (tick db).
Proof.
  unfold no_fault, tick. simpl. destruct (faults db); [done|].
  intros Hf. by apply Forall_cons in Hf as [_ ?].
Qed.

Lemma d1_call_ok {A} (stmt : D1 -> A * D1) db :
  no_fault db ->
  d1_call stmt db = (Returned (stmt (tick db)).1, (stmt (tick db)).2).
Proof.
  intros Hf. unfold d1_call.
  destruct (no_fault_head db Hf) as [-> | ->]; by destruct (stmt (tick db)).
Qed.

Lemma handle_POST_throttled (req : Request number) e cors now db last_ts :
  no_fault db ->
  rate_limits db !! Full.ipHash req e = Some last_ts ->
  last_ts <> 0 ->
  now - last_ts < 30000 ->
  Full.handle_POST req e cors now db = (Full.too_many_requests cors now last_ts, tick db).
Proof.
  intros Hf Hrow Hnz Hlt.
  unfold Full.handle_POST, try_catch, mbind, D1M_bind, select_last_ts.
  rewrite (d1_call_ok _ _ Hf). simpl. rewrite Hrow. simpl.
  rewrite (proj2 (Z.eqb_neq _ _) Hnz). simpl.
  unfold Full.WINDOW_MS. by rewrite (proj2 (Z.ltb_lt _ _) Hlt).
Qed.

Lemma handle_POST_let_through (req : Request number) e cors now db :
  no_fault db ->
  Full.within_window (rate_limits db !! Full.ipHash req e) now = false ->
  Full.handle_POST req e cors now db =
  match json_body req with
  | None =>
      (Full.json (Failure (js "Invalid JSON")) 400 cors,
       recorded db (Full.ipHash req e) now (messages db) 2)
  | Some body =>
      match normalizeText (get_text body) with
      | None =>
          (Full.json (FailureDetail (js "Server error on POST")
                        (error_detail (TypeError String_of_object))) 500 cors,
           recorded db (Full.ipHash req e) now (messages db) 2)
      | Some text =>
          if Full.invalid_text text
          then (Full.json (Failure (js "Text must be 1-50 chars")) 400 cors,
                recorded db (Full.ipHash req e) now (messages db) 2)
          else (Full.json OkTrue 200 cors,
                recorded db (Full.ipHash req e) now
                  (messages db ++ [new_message db text now]) 3)
      end
  end.
Proof.
  intros Hf Hw.
  pose proof (no_fault_tick _ Hf) as Hf1.
  unfold Full.handle_POST, try_catch, mbind, D1M_bind, select_last_ts.
  rewrite (d1_call_ok _ _ Hf). simpl.
  assert (Full.record_and_create req (Full.ipHash req e) cors now (tick db) =
          match json_body req with
          | None =>
              (Returned (Full.json (Failure (js "Invalid JSON")) 400 cors),
               recorded db (Full.ipHash req e) now (messages db) 2)
          | Some body =>
              match normalizeText (get_text body) with
              | None =>
                  (Thrown (TypeError String_of_object),
                   recorded db (Full.ipHash req e) now (messages db) 2)
              | Some text =>
                  if Full.invalid_text text
                  then (Returned (Full.json (Failure (js "Text must be 1-50 chars")) 400 cors),
                        recorded db (Full.ipHash req e) now (messages db) 2)
                  else (Returned (Full.json OkTrue 200 cors),
                        recorded db (Full.ipHash req e) now
                          (messages db ++ [new_message db text now]) 3)
              end
          end) as Hrec.
  { unfold Full.record_and_create, mbind, D1M_bind, upsert_rate_limit.
    rewrite (d1_call_ok _ _ Hf1). simpl.
    assert (tail (tail (faults db)) = drop 2 (faults db)) as Et
      by (by destruct (faults db) as [|? [|? ?]]).
    destruct (json_body req) as [body|]; simpl.
    - destruct (normalizeText (get_text body)) as [text|];
        [|unfold throw, recorded; by rewrite Et].
      destruct (Full.invalid_text text).
      + unfold mret, D1M_ret, recorded. by rewrite Et.
      + unfold insert_message.
        rewrite d1_call_ok.
        * simpl. unfold mret, D1M_ret, recorded, new_message. simpl.
          do 2 f_equal. f_equal. by destruct (faults db) as [|? [|? [|? ?]]].
        * apply (no_fault_tick _ Hf1).
    - unfold mret, D1M_ret, recorded. by rewrite Et. }
  destruct (rate_limits db !! Full.ipHash req e) as [last_ts|] eqn:Hrow.
  - rewrite Hw, Hrec. destruct (json_body req) as [body|]; simpl; [|done].
    destruct (normalizeText (get_text body)) as [text|]; [|done].
    by destruct (Full.invalid_text text).
  - rewrite Hrec. destruct (json_body req) as [body|]; simpl; [|done].
    destruct (normalizeText (get_text body)) as [text|]; [|done].
    by destruct (Full.invalid_text text).
Qed.

(** *** Every path of a POST *)

(** The ways a POST that reached the database ends, whatever the storage
    service does: throttled, or one of the outcomes of a request let
    through. *)
Lemma handle_POST_paths (req : Request number) e cors now db :
  let key := Full.ipHash req e in
  let r := Full.handle_POST req e cors now db in
  (exists last_ts,
      rate_limits db !! key = Some last_ts /\ last_ts <> 0 /\ now - last_ts < 30000 /\
      r.1 = Full.too_many_requests cors now last_ts /\
      rate_limits r.2 = rate_limits db /\ messages r.2 = messages db) \/
  let_through_outcome req key now db r.
Proof.
  intros key r. subst r.
  unfold Full.handle_POST, try_catch, mbind, D1M_bind, select_last_ts, d1_call.
  fold key.
  set (caught := fun out : Outcome Response * D1 =>
    match out with
    | (Returned a, db') => (a, db')
    | (Thrown err, db') =>
        (Full.json (FailureDetail (js "Server error on POST") (error_detail err)) 500 cors,
         db')
    end).
  assert (forall db1,
    rate_limits db1 = rate_limits db -> messages db1 = messages db ->
    let_through_outcome req key now db
      (caught (Full.record_and_create req key cors now db1))) as Hrec.
  { intros db1 Hrl Hms.
    unfold let_through_outcome, caught, Full.record_and_create, mbind, D1M_bind,
      upsert_rate_limit, insert_message, d1_call, mret, D1M_ret, throw, new_message.
    destruct (head (faults db1)) as [[err|]|]; simpl; [by left|..];
      (destruct (json_body req) as [parsed|]; simpl;
       [destruct (normalizeText (get_text parsed)) as [text|] eqn:Htext; simpl;
        [destruct (Full.invalid_text text) eqn:Hinv; simpl;
         [right; left; rewrite Hrl, Hms; eauto 10
         |destruct (head (tail (faults db1))) as [[err|]|]; simpl; [by left|..];
          right; right; rewrite Hrl, Hms; eauto 10]
        |by left]
       |right; left; rewrite Hrl, Hms; eauto 10]). }
  assert (forall db1,
    rate_limits db1 = rate_limits db -> messages db1 = messages db ->
    let r := caught
      ((match rate_limits db !! key with
        | Some last_ts =>
            if Full.within_window (rate_limits db !! key) now
            then mret (Full.too_many_requests cors now last_ts)
            else Full.record_and_create req key cors now
        | None => Full.record_and_create req key cors now
        end) db1) in
    (exists last_ts,
        rate_limits db !! key = Some last_ts /\ last_ts <> 0 /\ now - last_ts < 30000 /\
        r.1 = Full.too_many_requests cors now last_ts /\
        rate_limits r.2 = rate_limits db /\ messages r.2 = messages db) \/
    let_through_outcome req key now db r) as Hcheck.
  { intros db1 Hrl Hms.
    destruct (rate_limits db !! key) as [last_ts|] eqn:Hrow; [|right; by apply Hrec].
    destruct (Full.within_window (Some last_ts) now) eqn:Hw; [|right; by apply Hrec].
    left. exists last_ts. simpl in Hw. apply andb_true_iff in Hw as [Hnz Hlt].
    apply negb_true_iff, Z.eqb_neq in Hnz. apply Z.ltb_lt in Hlt.
    unfold Full.WINDOW_MS in Hlt. simpl. done. }
  destruct (head (faults db)) as [[err|]|]; simpl.
  - right; left. done.
  - by apply Hcheck.
  - by apply Hcheck.
Qed.

(** A 429 comes from the throttle test only, and leaves both tables as
    they were. *)
Lemma POST_429_inversion (ctx : Context number) now :
  method (request ctx) = js "POST" ->
  status (Full.onRequest ctx now).1 = 429 ->
  exists db db' last_ts,
    DB (env ctx) = Some db /\ DB (Full.onRequest ctx now).2 = Some db' /\
    rate_limits db !! Full.ipHash (request ctx) (env ctx) = Some last_ts /\
    last_ts <> 0 /\ now - last_ts < 30000 /\
    (Full.onRequest ctx now).1 =
      Full.too_many_requests (getCorsHeaders (request ctx)) now last_ts /\
    rate_limits db' = rate_limits db /\ messages db' = messages db.
Proof.
  intros Hm Hs. destruct (DB (env ctx)) as [db|] eqn:Hdb.
  - rewrite (onRequest_POST ctx now db Hm Hdb) in Hs |- *. simpl in Hs |- *.
    destruct (handle_POST_paths (request ctx) (env ctx) (getCorsHeaders (request ctx)) now db)
      as [(last_ts & ? & ? & ? & ? & ? & ?) | [[E _] | [[E _] | [E _]]]];
      [| rewrite E in Hs; discriminate ..].
    eauto 12.
  - rewrite onRequest_no_DB in Hs; [discriminate| |done].
    rewrite Hm. apply POST_is_not_OPTIONS.
Qed.

(** C4, as the code has it. A POST made while the client key has a stored
    [last_ts] other than [0] with [now - last_ts < 30000] leaves the
    stored [last_ts] of every key and the table of messages exactly as
    they were before the request, whatever the storage service does. It
    is answered 429 when the lookup of the rate limiter is answered, and
    500 when that lookup is rejected. *)
Theorem throttled_POST_changes_nothing (ctx : Context number) now db last_ts :
  method (request ctx) = js "POST" ->
  DB (env ctx) = Some db ->
  rate_limits db !! Full.ipHash (request ctx) (env ctx) = Some last_ts ->
  last_ts <> 0 ->
  now - last_ts < 30000 ->
  let post := Full.onRequest ctx now in
  rate_limits <$> DB post.2 = Some (rate_limits db) /\
  messages <$> DB post.2 = Some (messages db) /\
  ((forall err, head (faults db) <> Some (Some err)) -> status post.1 = 429) /\
  (forall err, head (faults db) = Some (Some err) -> status post.1 = 500).
Proof.
  intros Hm Hdb Hrow Hnz Hlt post. subst post.
  rewrite (onRequest_POST ctx now db Hm Hdb). simpl.
  unfold Full.handle_POST, try_catch, mbind, D1M_bind, select_last_ts, d1_call.
  assert (Full.within_window (Some last_ts) now = true) as Hw.
  { simpl. rewrite (proj2 (Z.eqb_neq _ _) Hnz). simpl.
    unfold Full.WINDOW_MS. by apply Z.ltb_lt. }
  destruct (head (faults db)) as [[err|]|]; simpl; rewrite ?Hrow, ?Hw; simpl.
  - split; [done|]. split; [done|]. split; [|done]. intros Hok. by destruct (Hok err).
  - split; [done|]. split; [done|]. split; [done|]. intros err. discriminate.
  - split; [done|]. split; [done|]. split; [done|]. intros err. discriminate.
Qed.

(** *** Decimal rendering *)

Lemma string_of_uint_digits d : Forall is_digit (js (NilEmpty.string_of_uint d)).
Proof.
  induction d; simpl; constructor; try done; unfold is_digit; simpl; lia.
Qed.

(** [String(n)] of a natural number is a non-empty string of digits. *)
Lemma Z_to_string_numeric n :
  0 <= n -> Z_to_string n <> [] /\ Forall is_digit (Z_to_string n).
Proof.
  intros Hn. unfold Z_to_string. destruct n as [|p|p]; [| |lia].
  - split; [done|]. repeat constructor; unfold is_digit; simpl; lia.
  - simpl. unfold NilZero.string_of_uint.
    destruct (Pos.to_uint p) eqn:E;
      (split; [done | rewrite <- ?E; try apply string_of_uint_digits]).
    repeat constructor; unfold is_digit; simpl; lia.
Qed.

(** [Math.ceil] of a quotient is the least integer not below it. *)
Lemma ceil_div_spec x y :
  0 < y -> y * (ceil_div x y - 1) < x <= y * ceil_div x y.
Proof.
  intros Hy. unfold ceil_div.
  pose proof (Z.div_mod (- x) y ltac:(lia)).
  pose proof (Z.mod_pos_bound (- x) y Hy). nia.
Qed.

(** C10. The answer to a throttled POST has the body [{ ok: false, error:
    "Too many requests", retry_after_ms }] and carries a [Retry-After]
    header whose value is the decimal rendering of [retry_after_ms] in
    whole seconds, rounded up. *)
Theorem throttled_response_shape (ctx : Context number) now :
  method (request ctx) = js "POST" ->
  status (Full.onRequest ctx now).1 = 429 ->
  exists retry_after_ms secs,
    body (Full.onRequest ctx now).1 = TooMany (js "Too many requests") retry_after_ms /\
    1000 * (secs - 1) < retry_after_ms <= 1000 * secs /\
    (js "Retry-After", Z_to_string secs) ∈ headers (Full.onRequest ctx now).1 /\
    Z_to_string secs <> [] /\ Forall is_digit (Z_to_string secs).
Proof.
  intros Hm Hs.
  destruct (POST_429_inversion ctx now Hm Hs)
    as (db & db' & last_ts & _ & _ & _ & _ & Hlt & -> & _ & _).
  exists (Full.WINDOW_MS - (now - last_ts)), (ceil_div (Full.WINDOW_MS - (now - last_ts)) 1000).
  pose proof (ceil_div_spec (Full.WINDOW_MS - (now - last_ts)) 1000 ltac:(lia)) as Hc.
  split; [done|]. split; [done|]. split.
  - simpl. apply list_elem_of_further, elem_of_app. right. by left.
  - apply Z_to_string_numeric. unfold Full.WINDOW_MS in *. lia.
Qed.

(** *** The decision of the rate limiter *)

Lemma onRequest_throttled (ctx : Context number) now db last_ts :
  method (request ctx) = js "POST" ->
  DB (env ctx) = Some db ->
  no_fault db ->
  rate_limits db !! Full.ipHash (request ctx) (env ctx) = Some last_ts ->
  last_ts <> 0 ->
  now - last_ts < 30000 ->
  Full.onRequest ctx now =
  (Full.too_many_requests (getCorsHeaders (request ctx)) now last_ts,
   {| DB := Some (tick db); RATE_LIMIT_SALT := RATE_LIMIT_SALT (env ctx) |}).
Proof.
  intros Hm Hdb Hf Hrow Hnz Hlt.
  rewrite (onRequest_POST ctx now db Hm Hdb).
  by rewrite (handle_POST_throttled _ _ _ _ _ last_ts Hf Hrow Hnz Hlt).
Qed.

(** A POST that the limiter lets through records [(key, now)] and is not
    answered 429, whatever its body. *)
Lemma onRequest_let_through (ctx : Context number) now db :
  method (request ctx) = js "POST" ->
  DB (env ctx) = Some db ->
  no_fault db ->
  Full.within_window (rate_limits db !! Full.ipHash (request ctx) (env ctx)) now = false ->
  status (Full.onRequest ctx now).1 <> 429 /\
  exists db',
    DB (Full.onRequest ctx now).2 = Some db' /\ no_fault db' /\
    rate_limits db' = <[Full.ipHash (request ctx) (env ctx) := now]> (rate_limits db).
Proof.
  intros Hm Hdb Hf Hw.
  assert (forall rows n, no_fault (recorded db (Full.ipHash (request ctx) (env ctx)) now rows n))
    as Hrec.
  { intros rows n. unfold no_fault, recorded. simpl. by apply Forall_drop. }
  rewrite (onRequest_POST ctx now db Hm Hdb).
  rewrite (handle_POST_let_through _ _ _ _ _ Hf Hw).
  destruct (json_body (request ctx)) as [body|]; simpl.
  - destruct (normalizeText (get_text body)) as [text|]; simpl;
      [destruct (Full.invalid_text text); simpl|]; (split; [done|]); eauto.
  - split; [done|]. eauto.
Qed.

Lemma within_window_false (row : option Z) now :
  (forall last_ts, row = Some last_ts -> last_ts = 0 \/ 30000 <= now - last_ts) ->
  Full.within_window row now = false.
Proof.
  destruct row as [last_ts|]; [|done]. intros Hrow. simpl.
  destruct (Hrow last_ts eq_refl) as [-> | Hge]; [done|].
  unfold Full.WINDOW_MS. rewrite (proj2 (Z.ltb_ge _ _)) by lia. apply andb_false_r.
Qed.

(** C1, as the code has it. For a POST whose storage calls succeed: when
    the key has no stored entry, or a stored [last_ts] with
    [now - last_ts >= 30000], the request is let through and [(key, now)]
    is upserted; when the key has a stored [last_ts] other than [0] with
    [now - last_ts < 30000], the request is answered 429 with
    [retry_after_ms = 30000 - (now - last_ts)], which is positive, and at
    most [30000] when [last_ts <= now]. Hence of two POSTs of one key, the
    first let through at [now], the second is throttled when [now <> 0]
    and it comes less than 30000 ms later, and let through when it comes
    at least 30000 ms later. *)
Theorem rate_limit_decision (ctx : Context number) now db :
  method (request ctx) = js "POST" ->
  DB (env ctx) = Some db ->
  no_fault db ->
  let key := Full.ipHash (request ctx) (env ctx) in
  let first := Full.onRequest ctx now in
  ((rate_limits db !! key = None \/
    exists last_ts, rate_limits db !! key = Some last_ts /\ 30000 <= now - last_ts) ->
   status first.1 <> 429 /\
   rate_limits <$> DB first.2 = Some (<[key := now]> (rate_limits db))) /\
  (forall last_ts,
     rate_limits db !! key = Some last_ts -> last_ts <> 0 -> now - last_ts < 30000 ->
     status first.1 = 429 /\
     body first.1 = TooMany (js "Too many requests") (30000 - (now - last_ts)) /\
     0 < 30000 - (now - last_ts) /\
     (last_ts <= now -> 30000 - (now - last_ts) <= 30000)) /\
  (forall (ctx2 : Context number) now2,
     method (request ctx2) = js "POST" ->
     env ctx2 = first.2 ->
     Full.ipHash (request ctx2) (env ctx2) = key ->
     status first.1 <> 429 ->
     let second := Full.onRequest ctx2 now2 in
     (now <> 0 -> now <= now2 -> now2 - now < 30000 ->
      status second.1 = 429 /\
      exists retry_after_ms,
        body second.1 = TooMany (js "Too many requests") retry_after_ms /\
        0 < retry_after_ms <= 30000) /\
     (30000 <= now2 - now -> status second.1 <> 429)).
Proof.
  intros Hm Hdb Hf key first.
  assert (forall last_ts,
    rate_limits db !! key = Some last_ts -> last_ts <> 0 -> now - last_ts < 30000 ->
    first = (Full.too_many_requests (getCorsHeaders (request ctx)) now last_ts,
             {| DB := Some (tick db); RATE_LIMIT_SALT := RATE_LIMIT_SALT (env ctx) |}))
    as Hthrottled.
  { intros last_ts Hrow Hnz Hlt. by apply onRequest_throttled. }
  split; [|split].
  - intros Hfree.
    destruct (onRequest_let_through ctx now db Hm Hdb Hf) as (Hs & db' & Hdb' & _ & Hrl).
    { apply within_window_false. fold key. intros last_ts Hrow.
      destruct Hfree as [Hnone | (l & Hl & Hge)]; [congruence|].
      right. congruence. }
    split; [done|]. subst first key. by rewrite Hdb', <- Hrl.
  - intros last_ts Hrow Hnz Hlt. rewrite (Hthrottled last_ts Hrow Hnz Hlt). simpl.
    unfold Full.WINDOW_MS. repeat split; lia.
  - intros ctx2 now2 Hm2 Henv2 Hkey2 Hallowed second.
    (* the first request was let through, so it recorded [(key, now)] *)
    assert (Full.within_window (rate_limits db !! key) now = false) as Hw.
    { destruct (Full.within_window (rate_limits db !! key) now) eqn:Hw; [|done].
      destruct (rate_limits db !! key) as [last_ts|] eqn:Hrow; [|done].
      simpl in Hw. apply andb_true_iff in Hw as [Hnz Hlt].
      apply negb_true_iff, Z.eqb_neq in Hnz. apply Z.ltb_lt in Hlt.
      unfold Full.WINDOW_MS in Hlt.
      rewrite (Hthrottled last_ts eq_refl Hnz Hlt) in Hallowed. done. }
    destruct (onRequest_let_through ctx now db Hm Hdb Hf Hw) as (_ & db' & Hdb' & Hf' & Hrl).
    fold first in Hdb'. rewrite <- Henv2 in Hdb'.
    assert (rate_limits db' !! Full.ipHash (request ctx2) (env ctx2) = Some now) as Hrow2.
    { rewrite Hrl, Hkey2. apply lookup_insert_eq. }
    split.
    + intros Hnow Hle Hlt. subst second.
      rewrite (onRequest_throttled ctx2 now2 db' now Hm2 Hdb' Hf' Hrow2 Hnow Hlt). simpl.
      split; [done|]. eexists. split; [done|]. unfold Full.WINDOW_MS. lia.
    + intros Hge.
      apply (onRequest_let_through ctx2 now2 db' Hm2 Hdb' Hf').
      rewrite Hrow2. simpl. unfold Full.WINDOW_MS.
      rewrite (proj2 (Z.ltb_ge _ _)) by lia. apply andb_false_r.
Qed.

(** *** Validation *)

Lemma invalid_text_spec (text : jsstring) :
  Full.invalid_text text = true <-> (length text = 0 \/ 50 < length text)%nat.
Proof.
  unfold Full.invalid_text. rewrite !orb_true_iff, bool_decide_eq_true.
  rewrite Nat.ltb_lt, Nat.ltb_lt. split.
  - intros [[-> | ?] | ?]; simpl; lia.
  - intros [E | ?]; [|by right]. left; left. by destruct text.
Qed.

Lemma valid_text_spec (text : jsstring) :
  Full.invalid_text text = false <-> (1 <= length text <= 50)%nat.
Proof.
  pose proof (invalid_text_spec text) as Hspec.
  destruct (Full.invalid_text text); split.
  - done.
  - intros Hlen. assert (true = true) as Ht by done. apply Hspec in Ht. lia.
  - intros _. destruct (decide (1 <= length text <= 50)%nat) as [|Hn]; [done|].
    assert (false = true); [|done]. apply Hspec. lia.
  - done.
Qed.

(** C3, as the code has it. A POST whose body is JSON and whose text
    normalises (with [String(_)] returning) to a text of length 0 or of
    more than 50 units inserts no row,
    whatever else happens; it is answered 400 with the error ["Text must
    be 1-50 chars"] when the request reaches validation, that is when its
    storage calls succeed and its key is outside the window. *)
Theorem invalid_text_POST_refused (ctx : Context number) now parsed text :
  method (request ctx) = js "POST" ->
  json_body (request ctx) = Some parsed ->
  normalizeText (get_text parsed) = Some text ->
  (length text = 0 \/ 50 < length text)%nat ->
  messages <$> DB (Full.onRequest ctx now).2 = messages <$> DB (env ctx) /\
  (forall db,
     DB (env ctx) = Some db ->
     no_fault db ->
     (forall last_ts,
        rate_limits db !! Full.ipHash (request ctx) (env ctx) = Some last_ts ->
        30000 <= now - last_ts) ->
     status (Full.onRequest ctx now).1 = 400 /\
     body (Full.onRequest ctx now).1 = Failure (js "Text must be 1-50 chars")).
Proof.
  intros Hm Hbody Htext Hlen. apply invalid_text_spec in Hlen. split.
  - destruct (DB (env ctx)) as [db|] eqn:Hdb.
    + rewrite (onRequest_POST ctx now db Hm Hdb). simpl. f_equal.
      destruct (handle_POST_paths (request ctx) (env ctx)
                  (getCorsHeaders (request ctx)) now db)
        as [(? & _ & _ & _ & _ & _ & E)
           | [[_ E] | [(_ & _ & _ & E) | (_ & b & t & Hb & Ht & Hv & _)]]];
        try done.
      rewrite Hbody in Hb. injection Hb as <-. congruence.
    + rewrite onRequest_no_DB; [simpl; by rewrite Hdb| |done].
      rewrite Hm. apply POST_is_not_OPTIONS.
  - intros db Hdb Hf Hout.
    rewrite (onRequest_POST ctx now db Hm Hdb).
    rewrite handle_POST_let_through; [|done|].
    + by rewrite Hbody, Htext, Hlen.
    + apply within_window_false. intros last_ts Hrow. right. by apply Hout.
Qed.

(** C5, as the code has it. A POST that passes the rate-limit check has
    [(key, now)] upserted before its body is parsed or validated; so one
    that is then refused with 400, for malformed JSON or for a text that
    normalises to an invalid length, creates no message and still starts the key's window: a
    following POST of the same key less than 30000 ms later is throttled,
    provided the refused request was not made at clock reading [0]. *)
Theorem refused_POST_starts_window (ctx : Context number) now db :
  method (request ctx) = js "POST" ->
  DB (env ctx) = Some db ->
  no_fault db ->
  let key := Full.ipHash (request ctx) (env ctx) in
  (rate_limits db !! key = None \/
   exists last_ts, rate_limits db !! key = Some last_ts /\ 30000 <= now - last_ts) ->
  let first := Full.onRequest ctx now in
  rate_limits <$> DB first.2 = Some (<[key := now]> (rate_limits db)) /\
  ((json_body (request ctx) = None \/
    exists body text,
      json_body (request ctx) = Some body /\
      normalizeText (get_text body) = Some text /\
      (length text = 0 \/ 50 < length text)%nat) ->
   status first.1 = 400 /\
   messages <$> DB first.2 = Some (messages db) /\
   forall (ctx2 : Context number) now2,
     method (request ctx2) = js "POST" ->
     env ctx2 = first.2 ->
     Full.ipHash (request ctx2) (env ctx2) = key ->
     now <> 0 ->
     now2 - now < 30000 ->
     status (Full.onRequest ctx2 now2).1 = 429 /\
     messages <$> DB (Full.onRequest ctx2 now2).2 = Some (messages db)).
Proof.
  intros Hm Hdb Hf key Hpass first.
  assert (Full.within_window (rate_limits db !! key) now = false) as Hw.
  { apply within_window_false. intros last_ts Hrow. right.
    destruct Hpass as [? | (l & ? & ?)]; congruence. }
  destruct (onRequest_let_through ctx now db Hm Hdb Hf Hw) as (_ & db' & Hdb' & Hf' & Hrl).
  fold first in Hdb'. fold key in Hrl. split; [rewrite Hdb'; simpl; by rewrite Hrl|].
  intros Hbad.
  assert (first.1 .(status) = 400 /\ messages db' = messages db) as [Hs Hms].
  { subst first. rewrite (onRequest_POST ctx now db Hm Hdb) in Hdb' |- *.
    simpl in Hdb' |- *. injection Hdb' as Hdb'. revert Hdb'.
    rewrite (handle_POST_let_through _ _ _ _ _ Hf Hw).
    destruct Hbad as [-> | (body & text & -> & -> & Hlen)]; [by intros <-|].
    apply invalid_text_spec in Hlen. rewrite Hlen. by intros <-. }
  split; [done|]. split; [rewrite Hdb'; simpl; by rewrite Hms|].
  intros ctx2 now2 Hm2 Henv2 Hkey2 Hnow Hlt.
  rewrite <- Henv2 in Hdb'.
  assert (rate_limits db' !! Full.ipHash (request ctx2) (env ctx2) = Some now) as Hrow2.
  { rewrite Hrl, Hkey2. apply lookup_insert_eq. }
  rewrite (onRequest_throttled ctx2 now2 db' now Hm2 Hdb' Hf' Hrow2 Hnow Hlt). simpl.
  by rewrite Hms.
Qed.

(** *** The read path *)

Lemma StronglySorted_lookup {A} (R : relation A) l i j a b :
  StronglySorted R l -> (i < j)%nat -> l !! i = Some a -> l !! j = Some b -> R a b.
Proof.
  intros Hl. revert i j. induction Hl as [|x l Hl IH Hx]; intros i j Hij Hi Hj; [done|].
  destruct j as [|j]; [lia|]. simpl in Hj. destruct i as [|i].
  - injection Hi as <-. rewrite Forall_forall in Hx. by eapply Hx, list_elem_of_lookup_2.
  - simpl in Hi. apply (IH i j); [lia|done..].
Qed.

(** What [SELECT ... ORDER BY created_at DESC LIMIT 10] returns: at most
    ten rows of the table, each at least as recent as those after it. *)
Lemma select_latest_sound rows :
  let top := take 10 (order_by_created_at_desc rows) in
  (length top <= 10)%nat /\
  (forall m, m ∈ top -> m ∈ rows) /\
  newest_first top.
Proof.
  intros top. split; [|split].
  - subst top. rewrite length_take. lia.
  - intros m Hm. apply elem_of_take in Hm as (i & Hi & _).
    rewrite <- (order_by_Permutation rows). by eapply list_elem_of_lookup_2.
  - intros i j a b Hij Hi Hj.
    pose proof (Sorted_StronglySorted _ _ (order_by_Sorted rows)) as Hs.
    apply lookup_take_Some in Hi as [Hi _]. apply lookup_take_Some in Hj as [Hj _].
    apply (StronglySorted_lookup _ _ _ _ _ _ Hs Hij Hi Hj).
Qed.

(** A row is among the first [n] of the ordered table when at most [n]
    rows are at least as recent as it, however the engine arranges rows of
    equal [created_at]. *)
Lemma select_latest_complete rows m n :
  m ∈ rows ->
  (length (filter (fun r => (created_at m <= created_at r)%Z) rows) <= n)%nat ->
  m ∈ take n (order_by_created_at_desc rows).
Proof.
  intros Hm Hcount.
  rewrite <- (order_by_Permutation rows) in Hm, Hcount.
  pose proof (Sorted_StronglySorted _ _ (order_by_Sorted rows)) as Hs.
  set (l := order_by_created_at_desc rows) in *.
  apply list_elem_of_lookup in Hm as [i Hi].
  apply elem_of_take. exists i. split; [done|].
  assert (Forall (fun r => created_at m <= created_at r) (take (S i) l)) as Hall.
  { apply Forall_lookup. intros j r Hj. apply lookup_take_Some in Hj as [Hj Hlt].
    destruct (decide (j = i)) as [-> | Hne]; [by simplify_eq|].
    apply (StronglySorted_lookup _ _ j i r m Hs); [lia|done..]. }
  assert (length (take (S i) l) = S i) as Hlen.
  { apply lookup_lt_Some in Hi. rewrite length_take. lia. }
  rewrite <- (take_drop (S i) l), filter_app, length_app in Hcount.
  assert (filter (fun r => created_at m <= created_at r) (take (S i) l) = take (S i) l) as Hfil.
  { clear -Hall. induction Hall as [|x k Hx Hk IH]; [done|].
    rewrite filter_cons_True by done. by rewrite IH. }
  rewrite Hfil, Hlen in Hcount. lia.
Qed.

Lemma handle_GET_ok cors db :
  no_fault db ->
  Full.handle_GET cors db =
  (Full.json (OkData (take 10 (order_by_created_at_desc (messages db)))) 200 cors, tick db).
Proof.
  intros Hf. unfold Full.handle_GET, try_catch, mbind, D1M_bind, select_latest_messages.
  by rewrite (d1_call_ok _ _ Hf).
Qed.

(** C9. A successful GET returns at most 10 messages, newest first: each
    is at least as recent, by [created_at], as every one after it. Both
    variants run the same query. *)
Theorem GET_returns_latest_ten (ctx : Context number) now :
  method (request ctx) = js "GET" ->
  (status (Full.onRequest ctx now).1 = 200 ->
   exists rows,
     body (Full.onRequest ctx now).1 = OkData rows /\
     (length rows <= 10)%nat /\ newest_first rows) /\
  (forall r,
     (Simple.onRequest ctx now).1 = Returned r ->
     exists rows,
       body r = OkData rows /\ (length rows <= 10)%nat /\ newest_first rows).
Proof.
  intros Hm. split.
  - intros Hs. destruct (DB (env ctx)) as [db|] eqn:Hdb.
    + rewrite (onRequest_GET ctx now db Hm Hdb) in Hs |- *. simpl in Hs |- *.
      revert Hs.
      unfold Full.handle_GET, try_catch, mbind, D1M_bind, select_latest_messages, d1_call.
      destruct (select_latest_sound (messages (tick db))) as (Hlen & _ & Hord).
      destruct (head (faults db)) as [[err|]|]; simpl; [done|..]; intros _; eauto.
    + rewrite onRequest_no_DB in Hs; [done| |done].
      rewrite Hm. apply GET_is_not_OPTIONS.
  - intros r. unfold Simple.onRequest. rewrite Hm.
    rewrite (bool_decide_eq_false_2 _ GET_is_not_OPTIONS).
    rewrite bool_decide_eq_true_2 by done.
    destruct (DB (env ctx)) as [db|]; [|done].
    unfold mbind, D1M_bind, select_latest_messages, d1_call.
    destruct (select_latest_sound (messages (tick db))) as (Hlen & _ & Hord).
    destruct (head (faults db)) as [[err|]|]; simpl; [done|..]; intros [= <-]; eauto.
Qed.

(** C2, as the code has it. A POST whose body is JSON and whose text
    normalises (with [String(_)] returning) to between 1 and 50 units, from a key outside its window
    and with storage calls that succeed, is answered 200 [{ ok: true }] and
    appends exactly one row, holding the normalised text and [created_at =
    now]. A GET that follows returns that row provided fewer than 10 of
    the rows stored before the POST have a [created_at] of [now] or later. *)
Theorem valid_POST_creates_message (ctx : Context number) now db parsed text :
  method (request ctx) = js "POST" ->
  DB (env ctx) = Some db ->
  no_fault db ->
  json_body (request ctx) = Some parsed ->
  normalizeText (get_text parsed) = Some text ->
  (1 <= length text <= 50)%nat ->
  (forall last_ts,
     rate_limits db !! Full.ipHash (request ctx) (env ctx) = Some last_ts ->
     30000 <= now - last_ts) ->
  let created := new_message db text now in
  let post := Full.onRequest ctx now in
  status post.1 = 200 /\
  body post.1 = OkTrue /\
  messages <$> DB post.2 = Some (messages db ++ [created]) /\
  forall (ctx2 : Context number) now2,
    method (request ctx2) = js "GET" ->
    env ctx2 = post.2 ->
    (length (filter (fun r => (now <= created_at r)%Z) (messages db)) < 10)%nat ->
    exists rows,
      status (Full.onRequest ctx2 now2).1 = 200 /\
      body (Full.onRequest ctx2 now2).1 = OkData rows /\
      created ∈ rows.
Proof.
  intros Hm Hdb Hf Hbody Htext Hlen Hout created post.
  apply valid_text_spec in Hlen.
  assert (post = (Full.json OkTrue 200 (getCorsHeaders (request ctx)),
                  {| DB := Some (recorded db (Full.ipHash (request ctx) (env ctx)) now
                                   (messages db ++ [created]) 3);
                     RATE_LIMIT_SALT := RATE_LIMIT_SALT (env ctx) |})) as ->.
  { subst post. rewrite (onRequest_POST ctx now db Hm Hdb).
    rewrite handle_POST_let_through; [|done|].
    - by rewrite Hbody, Htext, Hlen.
    - apply within_window_false. intros last_ts Hrow. right. by apply Hout. }
  simpl. repeat split; try done.
  intros ctx2 now2 Hm2 Henv2 Hcount.
  set (db' := recorded _ _ _ _ _) in Henv2.
  assert (DB (env ctx2) = Some db') as Hdb2 by (by rewrite Henv2).
  assert (no_fault db') as Hf'.
  { unfold no_fault, db', recorded. simpl. by apply Forall_drop. }
  rewrite (onRequest_GET ctx2 now2 db' Hm2 Hdb2), (handle_GET_ok _ _ Hf'). simpl.
  eexists. split; [done|]. split; [done|].
  apply select_latest_complete.
  - apply elem_of_app. right. by left.
  - rewrite filter_app, length_app.
    pose proof (length_filter (fun r => created_at created <= created_at r) [created]) as Hone.
    change (length [created]) with 1%nat in Hone.
    change (created_at created) with now in Hone |- *. lia.
Qed.

(** *** The simple variant and the rate-limit store *)

Lemma simple_never_touches_rate_limits (ctx : Context number) now :
  rate_limits <$> DB (Simple.onRequest ctx now).2 = rate_limits <$> DB (env ctx).
Proof.
  unfold Simple.onRequest. cbv zeta.
  repeat case_bool_decide; try done.
  - destruct (DB (env ctx)) as [db|] eqn:Hdb; [|simpl; by rewrite Hdb].
    storage_call db; done.
  - destruct (json_body (request ctx)) as [parsed|]; [|done].
    destruct (Simple.trimmed_text parsed) as [text|err]; [|done].
    destruct (Simple.invalid_text text); [done|].
    destruct (DB (env ctx)) as [db|] eqn:Hdb; [|simpl; by rewrite Hdb].
    storage_call db; done.
Qed.

Lemma simple_never_answers_429 (ctx : Context number) now r :
  (Simple.onRequest ctx now).1 = Returned r -> status r <> 429.
Proof.
  unfold Simple.onRequest. cbv zeta.
  repeat case_bool_decide.
  - by intros [= <-].
  - destruct (DB (env ctx)) as [db|]; [|done].
    storage_call db; [done|..]; by intros [= <-].
  - destruct (json_body (request ctx)) as [parsed|]; [|by intros [= <-]].
    destruct (Simple.trimmed_text parsed) as [text|err]; [|done].
    destruct (Simple.invalid_text text); [by intros [= <-]|].
    destruct (DB (env ctx)) as [db|]; [|done].
    storage_call db; [done|..]; by intros [= <-].
  - by intros [= <-].
Qed.

Lemma simple_ignores_rate_limits (ctx : Context number) now store :
  (Simple.onRequest (with_rate_limits store ctx) now).1 = (Simple.onRequest ctx now).1.
Proof.
  unfold Simple.onRequest, with_rate_limits. cbv zeta. simpl.
  repeat case_bool_decide; try done.
  - destruct (DB (env ctx)) as [db|]; [|done]. simpl.
    storage_call db; done.
  - destruct (json_body (request ctx)) as [parsed|]; [|done].
    destruct (Simple.trimmed_text parsed) as [text|err]; [|done].
    destruct (Simple.invalid_text text); [done|].
    destruct (DB (env ctx)) as [db|]; [|done]. simpl.
    storage_call db; done.
Qed.

(** C6, as the code has it. Only the full variant limits the rate. It
    answers 429 to a POST of a key whose stored [last_ts] is not [0] and
    less than 30000 ms old, and leaves the stored timestamp untouched; it
    records [(key, now)] for a POST it lets through; and whenever it
    answers 429 the stored timestamps are as they were. The simple variant
    has no rate limiter: it never changes the table [rate_limits], its
    response does not depend on that table, and it never answers 429. In
    neither variant does a throttled attempt update the stored timestamp. *)
Theorem only_full_variant_limits_rate (ctx : Context number) now :
  (rate_limits <$> DB (Simple.onRequest ctx now).2 = rate_limits <$> DB (env ctx) /\
   (forall store,
      (Simple.onRequest (with_rate_limits store ctx) now).1 = (Simple.onRequest ctx now).1) /\
   (forall r, (Simple.onRequest ctx now).1 = Returned r -> status r <> 429)) /\
  (forall db,
     method (request ctx) = js "POST" ->
     DB (env ctx) = Some db ->
     no_fault db ->
     let key := Full.ipHash (request ctx) (env ctx) in
     (forall last_ts,
        rate_limits db !! key = Some last_ts -> last_ts <> 0 -> now - last_ts < 30000 ->
        status (Full.onRequest ctx now).1 = 429 /\
        rate_limits <$> DB (Full.onRequest ctx now).2 = Some (rate_limits db)) /\
     (rate_limits db !! key = None \/
      (exists last_ts, rate_limits db !! key = Some last_ts /\ 30000 <= now - last_ts) ->
      status (Full.onRequest ctx now).1 <> 429 /\
      rate_limits <$> DB (Full.onRequest ctx now).2 = Some (<[key := now]> (rate_limits db)))) /\
  (method (request ctx) = js "POST" ->
   status (Full.onRequest ctx now).1 = 429 ->
   rate_limits <$> DB (Full.onRequest ctx now).2 = rate_limits <$> DB (env ctx)).
Proof.
  split; [split; [|split]|split].
  - apply simple_never_touches_rate_limits.
  - intros store. apply simple_ignores_rate_limits.
  - intros r. apply simple_never_answers_429.
  - intros db Hm Hdb Hf key. split.
    + intros last_ts Hrow Hnz Hlt.
      by rewrite (onRequest_throttled ctx now db last_ts Hm Hdb Hf Hrow Hnz Hlt).
    + intros Hfree.
      destruct (onRequest_let_through ctx now db Hm Hdb Hf) as (Hs & db' & Hdb' & _ & Hrl).
      { apply within_window_false. fold key. intros last_ts Hrow.
        destruct Hfree as [Hnone | (l & Hl & Hge)]; [congruence|].
        right. congruence. }
      split; [done|]. rewrite Hdb'. simpl. by rewrite Hrl.
  - intros Hm Hs.
    destruct (POST_429_inversion ctx now Hm Hs)
      as (db & db' & last_ts & -> & -> & _ & _ & _ & _ & Hrl & _).
    simpl. by rewrite Hrl.
Qed.

(** *** Other methods, and storage that fails *)

(** X1. A request whose method is none of OPTIONS, GET and POST is
    answered 405 [{ ok: false, error: "Method not allowed" }] and the
    database is left as it was: by the simple variant always, by the full
    variant when the binding [env.DB] is present. *)
Theorem other_methods_not_allowed (ctx : Context number) now :
  method (request ctx) <> js "OPTIONS" ->
  method (request ctx) <> js "GET" ->
  method (request ctx) <> js "POST" ->
  Simple.onRequest ctx now =
    (Returned (Simple.respond (Failure (js "Method not allowed")) 405), env ctx) /\
  (forall db,
     DB (env ctx) = Some db ->
     Full.onRequest ctx now =
       (Full.json (Failure (js "Method not allowed")) 405 (getCorsHeaders (request ctx)),
        env ctx)).
Proof.
  intros Ho Hg Hp. split.
  - unfold Simple.onRequest.
    by rewrite !bool_decide_eq_false_2 by done.
  - intros db Hdb. unfold Full.onRequest. rewrite Hdb.
    by rewrite !bool_decide_eq_false_2 by done.
Qed.

(** X2. A POST whose rate-limit lookup is rejected by the storage service,
    or whose upsert is rejected after the lookup let it through, is
    answered 500 [{ ok: false, error: "Server error on POST", detail }]
    with the detail of the rejection, and no message row is written: a
    storage failure never bypasses the limiter. *)
Theorem storage_failure_is_server_error (ctx : Context number) now db err :
  method (request ctx) = js "POST" ->
  DB (env ctx) = Some db ->
  head (faults db) = Some (Some err) \/
  ((forall other, head (faults db) <> Some (Some other)) /\
   Full.within_window (rate_limits db !! Full.ipHash (request ctx) (env ctx)) now = false /\
   head (tail (faults db)) = Some (Some err)) ->
  status (Full.onRequest ctx now).1 = 500 /\
  body (Full.onRequest ctx now).1 =
    FailureDetail (js "Server error on POST") (error_detail err) /\
  messages <$> DB (Full.onRequest ctx now).2 = Some (messages db).
Proof.
  intros Hm Hdb Hfail.
  rewrite (onRequest_POST ctx now db Hm Hdb). simpl.
  unfold Full.handle_POST, try_catch, mbind, D1M_bind, select_last_ts, d1_call.
  destruct Hfail as [-> | (Hok & Hw & Hup)]; [done|].
  assert (forall db1, messages db1 = messages db -> faults db1 = tail (faults db) ->
          let r := match Full.record_and_create (request ctx)
                           (Full.ipHash (request ctx) (env ctx))
                           (getCorsHeaders (request ctx)) now db1 with
                   | (Returned a, db') => (a, db')
                   | (Thrown e, db') =>
                       (Full.json (FailureDetail (js "Server error on POST") (error_detail e))
                          500 (getCorsHeaders (request ctx)), db')
                   end in
          status r.1 = 500 /\
          body r.1 = FailureDetail (js "Server error on POST") (error_detail err) /\
          Some (messages r.2) = Some (messages db)) as Hrec.
  { intros db1 Hms Hfs.
    unfold Full.record_and_create, mbind, D1M_bind, upsert_rate_limit, d1_call.
    rewrite Hfs, Hup. simpl. by rewrite Hms. }
  destruct (head (faults db)) as [[other|]|] eqn:Hhead.
  - by destruct (Hok other).
  - simpl. destruct (rate_limits db !! _) as [last_ts|] eqn:Hrow.
    + rewrite Hw. by apply Hrec.
    + by apply Hrec.
  - simpl. destruct (rate_limits db !! _) as [last_ts|] eqn:Hrow.
    + rewrite Hw. by apply Hrec.
    + by apply Hrec.
Qed.

End HandlerProperties.

(** ** What every invocation does *)

Section FurtherProperties.
Context {number : Type} `{JSNumber number} `{WebCrypto} `{D1Engine} `{Runtime}.

Lemma record_and_create_outcome (req : Request number) key cors now db db1 :
  messages db1 = messages db -> rate_limits db1 = rate_limits db ->
  Full.within_window (rate_limits db !! key) now = false ->
  let out := Full.record_and_create req key cors now db1 in
  POST_outcome req key cors now db
    match out.1 with
    | Returned r => r
    | Thrown err =>
        Full.json (FailureDetail (js "Server error on POST") (error_detail err)) 500 cors
    end out.2.
Proof.
  intros Hms Hrl Hw. unfold Full.record_and_create.
  storage_call db1.
  - apply Out_server_error; simpl; [done | by left].
  - destruct (json_body req) as [parsed|] eqn:Hbody; simpl.
    + destruct (normalizeText (get_text parsed)) as [text|] eqn:Htext; simpl.
      * destruct (Full.invalid_text text) eqn:Hinv; simpl.
        -- eapply Out_invalid; simpl; try done; by rewrite ?Hms, ?Hrl.
        -- destruct (head (tail (faults db1))) as [[err|]|]; simpl.
           ++ apply Out_server_error; simpl; [done | right; by rewrite Hrl].
           ++ eapply Out_created; simpl; try done; by rewrite ?Hms, ?Hrl.
           ++ eapply Out_created; simpl; try done; by rewrite ?Hms, ?Hrl.
      * apply Out_server_error; simpl; [done | right; by rewrite Hrl].
    + apply Out_malformed; simpl; by rewrite ?Hms, ?Hrl.
  - destruct (json_body req) as [parsed|] eqn:Hbody; simpl.
    + destruct (normalizeText (get_text parsed)) as [text|] eqn:Htext; simpl.
      * destruct (Full.invalid_text text) eqn:Hinv; simpl.
        -- eapply Out_invalid; simpl; try done; by rewrite ?Hms, ?Hrl.
        -- destruct (head (tail (faults db1))) as [[err|]|]; simpl.
           ++ apply Out_server_error; simpl; [done | right; by rewrite Hrl].
           ++ eapply Out_created; simpl; try done; by rewrite ?Hms, ?Hrl.
           ++ eapply Out_created; simpl; try done; by rewrite ?Hms, ?Hrl.
      * apply Out_server_error; simpl; [done | right; by rewrite Hrl].
    + apply Out_malformed; simpl; by rewrite ?Hms, ?Hrl.
Qed.

Lemma handle_POST_outcome (req : Request number) e cors now db :
  POST_outcome req (Full.ipHash req e) cors now db
    (Full.handle_POST req e cors now db).1 (Full.handle_POST req e cors now db).2.
Proof.
  unfold Full.handle_POST, try_catch.
  set (key := Full.ipHash req e).
  assert (forall db1, messages db1 = messages db -> rate_limits db1 = rate_limits db ->
          let out := (match rate_limits db !! key with
                      | Some last_ts =>
                          if Full.within_window (rate_limits db !! key) now
                          then mret (Full.too_many_requests cors now last_ts)
                          else Full.record_and_create req key cors now
                      | None => Full.record_and_create req key cors now
                      end) db1 in
          POST_outcome req key cors now db
            match out.1 with
            | Returned r => r
            | Thrown err =>
                Full.json (FailureDetail (js "Server error on POST") (error_detail err)) 500 cors
            end out.2) as Hcheck.
  { intros db1 Hms Hrl.
    destruct (rate_limits db !! key) as [last_ts|] eqn:Hrow.
    - destruct (Full.within_window (Some last_ts) now) eqn:Hw.
      + simpl in Hw. apply andb_true_iff in Hw as [Hnz Hlt].
        apply negb_true_iff, Z.eqb_neq in Hnz. apply Z.ltb_lt in Hlt.
        by apply Out_throttled.
      + apply record_and_create_outcome; [done..|]. by rewrite Hrow.
    - apply record_and_create_outcome; [done..|]. by rewrite Hrow. }
  unfold mbind, D1M_bind, select_last_ts, d1_call.
  destruct (head (faults db)) as [[err|]|]; simpl.
  - apply Out_server_error; [done | by left].
  - specialize (Hcheck (tick db) eq_refl eq_refl). simpl in Hcheck.
    by destruct (_ (tick db)) as [[r|err] db'].
  - specialize (Hcheck (tick db) eq_refl eq_refl). simpl in Hcheck.
    by destruct (_ (tick db)) as [[r|err] db'].
Qed.

(** Every invocation of the full variant ends in one of the outcomes. *)
Lemma onRequest_outcome (ctx : Context number) now :
  Full_outcome ctx now (Full.onRequest ctx now).1 (Full.onRequest ctx now).2.
Proof.
  unfold Full.onRequest. cbv zeta.
  case_bool_decide as Ho; [by apply Out_preflight|].
  destruct (DB (env ctx)) as [db|] eqn:Hdb; [|by apply Out_no_binding].
  case_bool_decide as Hg.
  - unfold Full.handle_GET, try_catch. storage_call db.
    + by eapply Out_list_failed.
    + by eapply Out_listed.
    + by eapply Out_listed.
  - case_bool_decide as Hp; [|by eapply Out_not_allowed].
    pose proof (handle_POST_outcome (request ctx) (env ctx)
                  (getCorsHeaders (request ctx)) now db) as Hout.
    destruct (Full.handle_POST _ _ _ _ _) as [r db']. by eapply Out_posted.
Qed.

(** *** What a response carries *)

(** X3. In every response of the full variant the status agrees with the
    envelope of the body: [ok: true] comes with 200, [ok: false] with 400,
    405, 429 or 500, and only the answer to OPTIONS has no body (its
    status is 200). Every response that has a body carries
    [Content-Type: application/json; charset=utf-8]. *)
Theorem status_matches_envelope (ctx : Context number) now :
  let r := (Full.onRequest ctx now).1 in
  match ok (body r) with
  | Some true => status r = 200
  | Some false => status r ∈ [400; 405; 429; 500]
  | None => status r = 200 /\ method (request ctx) = js "OPTIONS"
  end /\
  (body r <> NoBody ->
   (js "Content-Type", js "application/json; charset=utf-8") ∈ headers r).
Proof.
  cbv zeta.
  destruct (onRequest_outcome ctx now) as [| | | | ? ? ? ? ? Hpost |];
    [| | | |destruct Hpost|]; simpl.
  all: split; [|intros Hbody; first [by destruct Hbody | by left]].
  all: first [done | rewrite !elem_of_cons; tauto].
Qed.

Lemma response_headers (ctx : Context number) now :
  exists pre post,
    headers (Full.onRequest ctx now).1 = pre ++ getCorsHeaders (request ctx) ++ post /\
    Forall (fun kv => kv.1 = js "Content-Type") pre /\
    Forall (fun kv => kv.1 = js "Retry-After") post.
Proof.
  destruct (onRequest_outcome ctx now) as [| | | | ? ? ? ? ? Hpost |]; simpl;
    try (by exists [(js "Content-Type", js "application/json; charset=utf-8")], [];
         rewrite app_nil_r; repeat constructor).
  - exists [], []. by rewrite app_nil_r.
  - destruct Hpost; simpl;
      try (by exists [(js "Content-Type", js "application/json; charset=utf-8")], [];
           rewrite app_nil_r; repeat constructor).
    eexists [_], [_]. split; [done|]. by repeat constructor.
Qed.

Lemma getCorsHeaders_allow_origin (req : Request number) origin :
  (js "Access-Control-Allow-Origin", origin) ∈ getCorsHeaders req <->
  headers_get (req_headers req) (js "Origin") = Some origin /\ origin ∈ ALLOWED_ORIGINS.
Proof.
  unfold getCorsHeaders.
  destruct (headers_get (req_headers req) (js "Origin")) as [o|];
    [|split; [by intros ?%elem_of_nil | by intros [? _]]].
  destruct (present (Some o) && bool_decide (o ∈ ALLOWED_ORIGINS)) eqn:Hc.
  - apply andb_true_iff in Hc as [_ Hin]. apply bool_decide_eq_true in Hin. split.
    + intros Hel. apply elem_of_cons in Hel as [Heq | Hel].
      * injection Heq as Heq. by rewrite Heq.
      * exfalso.
        repeat (apply elem_of_cons in Hel as [Heq | Hel]; [discriminate Heq|]).
        by apply elem_of_nil in Hel.
    + intros [Heq _]. injection Heq as Heq. rewrite Heq. by left.
  - split; [by intros ?%elem_of_nil|]. intros [Heq Hin]. injection Heq as Heq.
    rewrite Heq in Hc. apply andb_false_iff in Hc as [Hp | Hn].
    + destruct origin; [|done]. exfalso.
      repeat (apply elem_of_cons in Hin as [Hnil | Hin]; [discriminate Hnil|]).
      by apply elem_of_nil in Hin.
    + by apply bool_decide_eq_false in Hn.
Qed.

(** X4. A response of the full variant carries
    [Access-Control-Allow-Origin: origin] exactly when [origin] is the
    value of the request's [Origin] header and one of the two allowed
    origins: on every path, error answers included, and for no other
    origin. *)
Theorem cors_only_for_allowed_origins (ctx : Context number) now origin :
  (js "Access-Control-Allow-Origin", origin) ∈ headers (Full.onRequest ctx now).1 <->
  headers_get (req_headers (request ctx)) (js "Origin") = Some origin /\
  origin ∈ ALLOWED_ORIGINS.
Proof.
  rewrite <- getCorsHeaders_allow_origin.
  destruct (response_headers ctx now) as (pre & post & -> & Hpre & Hpost).
  rewrite !elem_of_app. split; [|by intros; right; left].
  intros [Hel | [Hel | Hel]]; [|done|].
  - rewrite Forall_forall in Hpre. by apply Hpre in Hel.
  - rewrite Forall_forall in Hpost. by apply Hpost in Hel.
Qed.

(** *** What an invocation writes *)

(** With the binding present, an invocation either runs the POST path or
    leaves both tables as they were. *)
Lemma outcome_on_database (ctx : Context number) now db :
  DB (env ctx) = Some db ->
  exists db',
    DB (Full.onRequest ctx now).2 = Some db' /\
    (method (request ctx) = js "POST" /\
     POST_outcome (request ctx) (Full.ipHash (request ctx) (env ctx))
       (getCorsHeaders (request ctx)) now db (Full.onRequest ctx now).1 db' \/
     method (request ctx) <> js "POST" /\
     messages db' = messages db /\ rate_limits db' = rate_limits db).
Proof.
  intros Hdb.
  destruct (onRequest_outcome ctx now)
    as [Hm | ? Hd | d d' Hm Hd | d d' ? Hm Hd | d r d' Hm Hd Hpost | d ? ? ? Hd]; simpl.
  - exists db. split; [done|]. right. split; [|done]. by rewrite Hm.
  - congruence.
  - assert (d = db) as -> by congruence. exists d'. split; [done|]. right.
    split; [|done]. by rewrite Hm.
  - assert (d = db) as -> by congruence. exists d'. split; [done|]. right.
    split; [|done]. by rewrite Hm.
  - assert (d = db) as -> by congruence. exists d'. split; [done|]. by left.
  - exists db. split; [done|]. by right.
Qed.

(** X5. With the binding present, an invocation of the full variant
    changes no entry of [rate_limits] but that of the request's own key;
    that entry is left as it was or set to [now]; and a request that is
    not a POST leaves the table as it was. *)
Theorem request_writes_only_own_key (ctx : Context number) now db :
  DB (env ctx) = Some db ->
  let key := Full.ipHash (request ctx) (env ctx) in
  exists db',
    DB (Full.onRequest ctx now).2 = Some db' /\
    (forall k, k <> key -> rate_limits db' !! k = rate_limits db !! k) /\
    (rate_limits db' !! key = rate_limits db !! key \/ rate_limits db' !! key = Some now) /\
    (method (request ctx) <> js "POST" -> rate_limits db' = rate_limits db).
Proof.
  intros Hdb key.
  destruct (outcome_on_database ctx now db Hdb) as (db' & Hdb' & Hout).
  exists db'. split; [done|].
  assert (rate_limits db' = rate_limits db \/
          method (request ctx) = js "POST" /\
          rate_limits db' = <[key := now]> (rate_limits db)) as [Hrl | [Hm Hrl]].
  { destruct Hout as [[Hm Hpost] | (_ & _ & ?)]; [|by left].
    destruct Hpost as [? ? ? [?|?]| | | |]; auto. }
  - rewrite Hrl. split; [done|]. split; [by left | done].
  - rewrite Hrl. split; [|split].
    + intros k Hk. by rewrite lookup_insert_ne.
    + right. apply lookup_insert_eq.
    + done.
Qed.

Lemma created_text_ok (parsed : JSValue number) text db now :
  normalizeText (get_text parsed) = Some text ->
  Full.invalid_text text = false ->
  stored_text_ok (new_message db text now).
Proof.
  intros Htext Hv. apply valid_text_spec in Hv.
  destruct (normalizeText_fixed (get_text parsed) text Htext) as [Ht Hr]. by split.
Qed.

(** X6. With the binding present, an invocation of the full variant
    leaves [messages] as it was or, for a POST answered 200, appends
    exactly one row: it has the next identifier, [created_at = now], and a
    text of 1 to 50 units that [trim] and the white-space replacement
    leave unchanged. No stored row is changed or removed. *)
Theorem messages_append_only (ctx : Context number) now db :
  DB (env ctx) = Some db ->
  exists db',
    DB (Full.onRequest ctx now).2 = Some db' /\
    (messages db' = messages db \/
     method (request ctx) = js "POST" /\
     status (Full.onRequest ctx now).1 = 200 /\
     exists row,
       messages db' = messages db ++ [row] /\
       id row = next_id (messages db) /\ created_at row = now /\ stored_text_ok row).
Proof.
  intros Hdb.
  destruct (outcome_on_database ctx now db Hdb) as (db' & Hdb' & Hout).
  exists db'. split; [done|].
  destruct Hout as [[Hm Hpost] | (_ & ? & _)]; [|by left].
  destruct Hpost as [| | | |parsed text d' Hbody Htext Hvalid Hms Hrl]; [by left..|].
  right. split; [done|]. split; [done|]. eexists. split; [done|].
  split; [done|]. split; [done|]. by eapply created_text_ok.
Qed.

(** One invocation leaves the table [messages] as it was or appends one
    row whose text is as the full variant stores it. *)
Lemma onRequest_appends (ctx : Context number) now db :
  DB (env ctx) = Some db ->
  exists db',
    DB (Full.onRequest ctx now).2 = Some db' /\
    (messages db' = messages db \/
     exists row, messages db' = messages db ++ [row] /\ stored_text_ok row).
Proof.
  intros Hdb.
  destruct (outcome_on_database ctx now db Hdb) as (db' & Hdb' & Hout).
  exists db'. split; [done|].
  destruct Hout as [[Hm Hpost] | (_ & ? & _)]; [|by left].
  destruct Hpost as [| | | |parsed text d' Hbody Htext Hvalid Hms Hrl]; [by left..|].
  right. eexists. split; [done|]. by eapply created_text_ok.
Qed.

Lemma onRequest_keeps_salt (ctx : Context number) now :
  RATE_LIMIT_SALT (Full.onRequest ctx now).2 = RATE_LIMIT_SALT (env ctx).
Proof. by destruct (onRequest_outcome ctx now). Qed.

Lemma onRequest_keeps_binding (ctx : Context number) now :
  DB (env ctx) = None -> DB (Full.onRequest ctx now).2 = None.
Proof.
  intros Hdb. by destruct (onRequest_outcome ctx now); simpl; rewrite ?Hdb in *.
Qed.

(** X7. Over any sequence of requests that the full variant serves one
    after the other, whatever the storage service does: the rows stored
    before stay, in place, at the front of the table; at most one row per
    request is added; and if every stored text was between 1 and 50 units
    and normalised, every stored text still is. *)
Theorem serving_keeps_stored_messages (e : Env) (reqs : list (Request number * Z)) db :
  DB e = Some db ->
  exists db',
    DB (serve e reqs).2 = Some db' /\
    messages db `prefix_of` messages db' /\
    (length (messages db') <= length (messages db) + length reqs)%nat /\
    (Forall stored_text_ok (messages db) -> Forall stored_text_ok (messages db')).
Proof.
  revert e db. induction reqs as [|[req now] reqs IH]; intros e db Hdb; simpl.
  - exists db. split; [done|]. split; [done|]. split; [lia | done].
  - destruct (onRequest_appends {| request := req; env := e |} now db Hdb)
      as (db1 & Hdb1 & Hstep).
    destruct (Full.onRequest {| request := req; env := e |} now) as [r e1]. simpl in *.
    destruct (IH e1 db1 Hdb1) as (db' & Hdb' & Hpre & Hlen & Hok).
    destruct (serve e1 reqs) as [rs e']. simpl in *.
    exists db'. split; [done|].
    destruct Hstep as [Hms | (row & Hms & Hrow)]; rewrite Hms in *.
    + split; [done|]. split; [lia | done].
    + split; [by etrans; [apply prefix_app_r|]|].
      split; [rewrite length_app in Hlen; simpl in Hlen; lia|].
      intros Hall. apply Hok, Forall_app. split; [done | by constructor].
Qed.

(** *** The window under retries *)

Lemma ipHash_depends_on_salt (req : Request number) e e' :
  RATE_LIMIT_SALT e' = RATE_LIMIT_SALT e -> Full.ipHash req e' = Full.ipHash req e.
Proof. intros Hs. unfold Full.ipHash. by rewrite Hs. Qed.

(** X8. The window is fixed at the recorded attempt. POSTs of a key made
    inside its window are all answered 429 and leave both tables as they
    were; after any number of them, a POST of that key made 30000 ms or
    more after the recorded attempt is not answered 429. *)
Theorem retries_do_not_extend_window (e : Env) db key last_ts
    (retries : list (Request number * Z)) :
  DB e = Some db ->
  no_fault db ->
  rate_limits db !! key = Some last_ts ->
  last_ts <> 0 ->
  Forall (fun retry => method retry.1 = js "POST" /\ Full.ipHash retry.1 e = key /\
                       retry.2 - last_ts < 30000) retries ->
  let served := serve e retries in
  length served.1 = length retries /\
  Forall (fun r => status r = 429) served.1 /\
  (exists db',
     DB served.2 = Some db' /\
     rate_limits db' = rate_limits db /\ messages db' = messages db) /\
  forall (req : Request number) now,
    method req = js "POST" ->
    Full.ipHash req e = key ->
    30000 <= now - last_ts ->
    status (Full.onRequest {| request := req; env := served.2 |} now).1 <> 429.
Proof.
  intros Hdb Hf Hrow Hnz Hall. cbv zeta.
  assert (length (serve e retries).1 = length retries /\
          Forall (fun r => status r = 429) (serve e retries).1 /\
          exists db',
            DB (serve e retries).2 = Some db' /\ no_fault db' /\
            RATE_LIMIT_SALT (serve e retries).2 = RATE_LIMIT_SALT e /\
            rate_limits db' = rate_limits db /\ messages db' = messages db)
    as (Hlen & H429 & db' & Hdb' & Hf' & Hsalt & Hrl & Hms).
  { revert e db Hdb Hf Hrow Hall.
    induction retries as [|[req now] retries IH]; intros e db Hdb Hf Hrow Hall; simpl.
    - split; [done|]. split; [done|]. by exists db.
    - apply Forall_cons in Hall as [(Hm & Hkey & Hlt) Hall]. simpl in Hm, Hkey, Hlt.
      assert (rate_limits db !! Full.ipHash req e = Some last_ts) as Hrow'
        by (by rewrite Hkey).
      rewrite (onRequest_throttled {| request := req; env := e |} now db last_ts
                 Hm Hdb Hf Hrow' Hnz Hlt). simpl.
      set (e1 := {| DB := Some (tick db); RATE_LIMIT_SALT := RATE_LIMIT_SALT e |}).
      destruct (IH e1 (tick db) eq_refl (no_fault_tick _ Hf) Hrow)
        as (Hlen & H429 & db' & Hdb' & Hf' & Hsalt & Hrl & Hms).
      + eapply Forall_impl; [exact Hall|]. intros [req' now'] (? & Hk & ?).
        split; [done|]. split; [|done]. simpl in *.
        by rewrite (ipHash_depends_on_salt req' e e1).
      + destruct (serve e1 retries) as [rs e']. simpl in *.
        split; [by rewrite Hlen|]. split; [by constructor|]. by exists db'. }
  split; [done|]. split; [done|]. split; [by exists db'|].
  intros req now Hm Hkey Hge.
  apply (onRequest_let_through {| request := req; env := (serve e retries).2 |} now db' Hm Hdb' Hf').
  simpl. rewrite (ipHash_depends_on_salt req e _ Hsalt), Hkey, Hrl, Hrow. simpl.
  unfold Full.WINDOW_MS. rewrite (proj2 (Z.ltb_ge _ _)) by lia. apply andb_false_r.
Qed.

(** *** Storage that fails later, or is not there *)

(** X9. When the storage service answers the lookup and the upsert of
    the rate limiter and rejects the insert into [messages], a POST whose
    text normalises (with [String(_)] returning) to a valid text is
    answered 500 ["Server error on POST"] with the detail of the
    rejection; no row is written, and the attempt stays recorded under
    the client's key. *)
Theorem insert_failure_keeps_attempt (ctx : Context number) now db parsed text err rest :
  method (request ctx) = js "POST" ->
  DB (env ctx) = Some db ->
  faults db = None :: None :: Some err :: rest ->
  Full.within_window (rate_limits db !! Full.ipHash (request ctx) (env ctx)) now = false ->
  json_body (request ctx) = Some parsed ->
  normalizeText (get_text parsed) = Some text ->
  Full.invalid_text text = false ->
  (Full.onRequest ctx now).1 =
    Full.json (FailureDetail (js "Server error on POST") (error_detail err)) 500
      (getCorsHeaders (request ctx)) /\
  exists db',
    DB (Full.onRequest ctx now).2 = Some db' /\
    messages db' = messages db /\
    rate_limits db' = <[Full.ipHash (request ctx) (env ctx) := now]> (rate_limits db).
Proof.
  intros Hm Hdb Hfaults Hw Hbody Htext Hvalid.
  rewrite (onRequest_POST ctx now db Hm Hdb). simpl.
  unfold Full.handle_POST, try_catch, mbind, D1M_bind, select_last_ts, d1_call.
  rewrite Hfaults. simpl.
  assert (Full.record_and_create (request ctx) (Full.ipHash (request ctx) (env ctx))
            (getCorsHeaders (request ctx)) now (tick db) =
          (Thrown err,
           {| messages := messages db;
              rate_limits := <[Full.ipHash (request ctx) (env ctx) := now]> (rate_limits db);
              faults := rest |})) as Hrec.
  { unfold Full.record_and_create, mbind, D1M_bind, upsert_rate_limit, insert_message,
      d1_call, tick.
    rewrite Hfaults. simpl. by rewrite Hbody, Htext, Hvalid. }
  destruct (rate_limits db !! _) as [last_ts|].
  - rewrite Hw, Hrec. simpl. eauto.
  - rewrite Hrec. simpl. eauto.
Qed.

(** X10. A GET whose SELECT the storage service rejects: the full
    variant answers 500 ["DB error on GET"] with the detail of the
    rejection, the simple variant throws the error of the rejection; the
    table [messages] is as it was in both. *)
Theorem GET_storage_failure (ctx : Context number) now db err :
  method (request ctx) = js "GET" ->
  DB (env ctx) = Some db ->
  head (faults db) = Some (Some err) ->
  (Full.onRequest ctx now).1 =
    Full.json (FailureDetail (js "DB error on GET") (error_detail err)) 500
      (getCorsHeaders (request ctx)) /\
  (Simple.onRequest ctx now).1 = Thrown err /\
  messages <$> DB (Full.onRequest ctx now).2 = Some (messages db) /\
  messages <$> DB (Simple.onRequest ctx now).2 = Some (messages db).
Proof.
  intros Hm Hdb Hfail.
  rewrite (onRequest_GET ctx now db Hm Hdb).
  unfold Simple.onRequest. rewrite Hm, Hdb.
  rewrite (bool_decide_eq_false_2 _ GET_is_not_OPTIONS).
  rewrite bool_decide_eq_true_2 by done.
  unfold Full.handle_GET, try_catch, mbind, D1M_bind, select_latest_messages, d1_call.
  by rewrite Hfail.
Qed.

(** X11. Without the binding [env.DB], the full variant answers 500
    ["DB binding not found (env.DB is undefined)"] to every request that
    is not OPTIONS; the simple variant has no such check and throws a
    [TypeError] on a GET and on a POST whose text it accepts. Both leave
    the environment as it was. *)
Theorem missing_binding (ctx : Context number) now :
  DB (env ctx) = None ->
  method (request ctx) <> js "OPTIONS" ->
  Full.onRequest ctx now =
    (Full.json (Failure (js "DB binding not found (env.DB is undefined)")) 500
       (getCorsHeaders (request ctx)), env ctx) /\
  (Simple.onRequest ctx now).2 = env ctx /\
  (method (request ctx) = js "GET" ->
   exists e, (Simple.onRequest ctx now).1 = Thrown e /\ name e = js "TypeError") /\
  (method (request ctx) = js "POST" ->
   forall s,
     (get_text <$> json_body (request ctx)) = Some (JString s) ->
     Simple.invalid_text (trim s) = false ->
     exists e, (Simple.onRequest ctx now).1 = Thrown e /\ name e = js "TypeError").
Proof.
  intros Hdb Ho. split; [by apply onRequest_no_DB|].
  unfold Simple.onRequest. cbv zeta. rewrite Hdb.
  rewrite (bool_decide_eq_false_2 _ Ho).
  split; [|split].
  - case_bool_decide; [done|]. case_bool_decide; [|done].
    destruct (json_body (request ctx)) as [parsed|]; [|done].
    destruct (Simple.trimmed_text parsed); [|done].
    by destruct (Simple.invalid_text _).
  - intros Hm. rewrite bool_decide_eq_true_2 by done. eauto.
  - intros Hm s Htext Hvalid. rewrite Hm.
    rewrite (bool_decide_eq_false_2 _ POST_is_not_GET).
    rewrite bool_decide_eq_true_2 by done.
    destruct (json_body (request ctx)) as [parsed|]; [|done].
    injection Htext as Htext. unfold Simple.trimmed_text. rewrite Htext.
    unfold js_or. destruct s as [|c s]; [discriminate Hvalid|].
    simpl. rewrite Hvalid. eauto.
Qed.


(** *** The read path, completely *)

(** X12. The rows of a GET answered with data, together with the rows it
    omits, are the rows of the table (each once); no omitted row is more
    recent than a listed one; and rows are omitted only when ten are
    listed. The simple variant, when it returns, lists the same rows. *)
Theorem GET_lists_the_most_recent (ctx : Context number) now db rows :
  method (request ctx) = js "GET" ->
  DB (env ctx) = Some db ->
  body (Full.onRequest ctx now).1 = OkData rows ->
  (exists omitted,
     rows ++ omitted ≡ₚ messages db /\
     (forall a b, a ∈ rows -> b ∈ omitted -> created_at b <= created_at a) /\
     (omitted <> [] -> length rows = 10%nat)) /\
  (forall r, (Simple.onRequest ctx now).1 = Returned r -> body r = OkData rows).
Proof.
  intros Hm Hdb. rewrite (onRequest_GET ctx now db Hm Hdb). simpl.
  unfold Simple.onRequest. rewrite Hm, Hdb.
  rewrite (bool_decide_eq_false_2 _ GET_is_not_OPTIONS).
  rewrite bool_decide_eq_true_2 by done.
  unfold Full.handle_GET, try_catch. storage_call db; [done|..];
    (intros [= <-]; split; [|by intros r [= <-]]);
    (exists (drop 10 (order_by_created_at_desc (messages db)));
     rewrite take_drop; split; [apply order_by_Permutation|]; split;
     [ intros a b Ha Hb;
       pose proof (Sorted_StronglySorted _ _ (order_by_Sorted (messages db))) as Hs;
       rewrite <- (take_drop 10 (order_by_created_at_desc (messages db))) in Hs;
       apply (StronglySorted_app_1_elem_of _ _ _ _ _ Hs Ha Hb)
     | intros Hne; rewrite length_take; apply Nat.min_l;
       destruct (decide (10 <= length (order_by_created_at_desc (messages db)))%nat)
         as [|Hshort]; [done|];
       rewrite drop_ge in Hne by lia; done ]).
Qed.

(** *** The text field *)

(** X13. The simple variant refuses a POST before any storage call: a
    body that is not JSON is answered 400 ["Invalid JSON"]; a text that is
    falsy, or a string whose [trim] is empty or longer than 50 units, is
    answered 400 ["Text must be 1-50 chars"]. The environment is left as
    it was, whether the binding is there or not. *)
Theorem simple_refuses_before_storage (ctx : Context number) now :
  method (request ctx) = js "POST" ->
  (json_body (request ctx) = None ->
   Simple.onRequest ctx now =
     (Returned (Simple.respond (Failure (js "Invalid JSON")) 400), env ctx)) /\
  (forall parsed,
     json_body (request ctx) = Some parsed ->
     truthy (get_text parsed) = false \/
     (exists s, get_text parsed = JString s /\
                (trim s = [] \/ 50 < length (trim s))%nat) ->
     Simple.onRequest ctx now =
       (Returned (Simple.respond (Failure (js "Text must be 1-50 chars")) 400), env ctx)).
Proof.
  intros Hm. unfold Simple.onRequest. cbv zeta. rewrite Hm.
  rewrite (bool_decide_eq_false_2 _ POST_is_not_OPTIONS).
  rewrite (bool_decide_eq_false_2 _ POST_is_not_GET).
  rewrite bool_decide_eq_true_2 by done.
  split; [by intros ->|].
  intros parsed -> Hbad. unfold Simple.trimmed_text, js_or.
  destruct Hbad as [-> | (s & -> & Hbad)]; [done|].
  assert (Simple.invalid_text (trim s) = true) as Hinv.
  { unfold Simple.invalid_text. destruct Hbad as [-> | Hlong]; [done|].
    apply orb_true_iff. right. by apply Nat.ltb_lt. }
  simpl. destruct s as [|c s]; [done|]. by rewrite Hinv.
Qed.

(** X14. In the simple variant, a POST whose [text] is truthy and not a
    string (a number, [true], an array, an object) makes the invocation
    throw a [TypeError], that of calling [trim] on it; nothing is
    written. *)
Theorem simple_throws_on_text_that_is_no_string (ctx : Context number) now parsed :
  method (request ctx) = js "POST" ->
  json_body (request ctx) = Some parsed ->
  truthy (get_text parsed) = true ->
  (forall s, get_text parsed <> JString s) ->
  exists e,
    Simple.onRequest ctx now = (Thrown e, env ctx) /\ name e = js "TypeError".
Proof.
  intros Hm Hbody Htruthy Hnot. exists (TypeError trim_of_text). split; [|done].
  unfold Simple.onRequest. cbv zeta. rewrite Hm, Hbody.
  rewrite (bool_decide_eq_false_2 _ POST_is_not_OPTIONS).
  rewrite (bool_decide_eq_false_2 _ POST_is_not_GET).
  rewrite bool_decide_eq_true_2 by done.
  unfold Simple.trimmed_text, js_or. rewrite Htruthy.
  destruct (get_text parsed); try done. by destruct (Hnot s).
Qed.

(** X15. The full variant renders a [text] that is not a string with
    [String(_)]. A POST whose [text] is an object without an own property
    [toString], or is [true], that the limiter lets through is answered
    200 and stores the text ["[object Object]"], or ["true"]. *)
Theorem full_stringifies_text_that_is_no_string (ctx : Context number) now db parsed :
  method (request ctx) = js "POST" ->
  DB (env ctx) = Some db ->
  no_fault db ->
  Full.within_window (rate_limits db !! Full.ipHash (request ctx) (env ctx)) now = false ->
  json_body (request ctx) = Some parsed ->
  (exists properties,
     get_text parsed = JObject properties /\
     has_own_property (js "toString") properties = false) \/
  get_text parsed = JBool true ->
  status (Full.onRequest ctx now).1 = 200 /\
  exists stored,
    messages <$> DB (Full.onRequest ctx now).2 =
      Some (messages db ++ [new_message db stored now]) /\
    (stored = js "[object Object]" \/ stored = js "true").
Proof.
  intros Hm Hdb Hf Hw Hbody Hkind.
  rewrite (onRequest_POST ctx now db Hm Hdb).
  rewrite (handle_POST_let_through _ _ _ _ _ Hf Hw), Hbody.
  destruct Hkind as [(properties & -> & Hown) | ->].
  - assert (normalizeText (JObject properties) = Some (js "[object Object]")) as ->.
    { unfold normalizeText, js_or. simpl. by rewrite Hown. }
    simpl. eauto.
  - change (normalizeText (JBool true : JSValue number)) with (Some (js "true")).
    simpl. eauto.
Qed.

(** An array one of whose elements is an object with an own property
    [toString] has no [String(_)]. *)
Lemma ToString_array_throws (elements : list (JSValue number)) properties :
  JObject properties ∈ elements ->
  has_own_property (js "toString") properties = true ->
  ToString (JArray elements) = None.
Proof.
  intros Hin Hown. simpl.
  rewrite mapM_None_2; [done|].
  apply Exists_exists. exists (JObject properties). split; [done|].
  simpl. by rewrite Hown.
Qed.

(** X24. Where [String(_)] throws, the POST path answers from its [catch].
    A POST whose [text] is an object with an own property [toString], or
    an array holding such an object, that the limiter lets through is
    answered 500 ["Server error on POST"] with the detail of the
    [TypeError]; no row is written, and the attempt stays recorded under
    the client's key. *)
Theorem text_without_string_is_server_error (ctx : Context number) now db parsed
    properties :
  method (request ctx) = js "POST" ->
  DB (env ctx) = Some db ->
  no_fault db ->
  Full.within_window (rate_limits db !! Full.ipHash (request ctx) (env ctx)) now = false ->
  json_body (request ctx) = Some parsed ->
  has_own_property (js "toString") properties = true ->
  get_text parsed = JObject properties \/
  (exists elements, get_text parsed = JArray elements /\ JObject properties ∈ elements) ->
  (Full.onRequest ctx now).1 =
    Full.json (FailureDetail (js "Server error on POST")
                 (error_detail (TypeError String_of_object))) 500
      (getCorsHeaders (request ctx)) /\
  exists db',
    DB (Full.onRequest ctx now).2 = Some db' /\
    messages db' = messages db /\
    rate_limits db' = <[Full.ipHash (request ctx) (env ctx) := now]> (rate_limits db).
Proof.
  intros Hm Hdb Hf Hw Hbody Hown Hkind.
  assert (normalizeText (get_text parsed) = None) as Htext.
  { unfold normalizeText, js_or.
    destruct Hkind as [-> | (elements & -> & Hin)]; cbn [truthy].
    - simpl. by rewrite Hown.
    - by rewrite (ToString_array_throws elements properties Hin Hown). }
  rewrite (onRequest_POST ctx now db Hm Hdb).
  rewrite (handle_POST_let_through _ _ _ _ _ Hf Hw), Hbody, Htext.
  simpl. eauto.
Qed.

End FurtherProperties.

Section TextProperties.
Context {number : Type} `{JSNumber number} `{Runtime}.

Lemma trimStart_length s : (length (trimStart s) <= length s)%nat.
Proof.
  induction s as [|c s IH]; simpl; [done|]. destruct (is_whitespace c); simpl; lia.
Qed.

Lemma trimEnd_length s : (length (trimEnd s) <= length s)%nat.
Proof.
  induction s as [|c s IH]; simpl; [done|].
  destruct (trimEnd s); [destruct (is_whitespace c)|]; simpl in *; lia.
Qed.

Lemma replace_runs_length b s : (length (replace_runs b s) <= length s)%nat.
Proof.
  revert b. induction s as [|c s IH]; intros b; simpl; [done|].
  pose proof (IH true). pose proof (IH false).
  destruct (is_whitespace c); [destruct b|]; simpl; lia.
Qed.

(** In what the replacement emits, white space is the single space, and
    is never followed by white space; inside a run it emits none first. *)
Lemma replace_runs_spaced b s :
  let out := replace_runs b s in
  Forall (fun c => is_whitespace c = true -> c = SPACE) out /\
  (forall i c d, out !! i = Some c -> out !! S i = Some d ->
                 is_whitespace c = true -> is_whitespace d = false) /\
  (b = true -> forall c, head out = Some c -> is_whitespace c = false).
Proof.
  revert b. induction s as [|c s IH]; intros b; simpl; [by repeat split|].
  destruct (is_whitespace c) eqn:Hc.
  - destruct b.
    + apply IH.
    + destruct (IH true) as (Hall & Hadj & Hhead). split; [by constructor|]. split; [|done].
      intros [|i] x y Hx Hy Hws; simpl in *.
      * apply (Hhead eq_refl). by destruct (replace_runs true s); simplify_eq.
      * exact (Hadj i x y Hx Hy Hws).
  - destruct (IH false) as (Hall & Hadj & _). split; [|split].
    + constructor; [congruence | done].
    + intros [|i] x y Hx Hy Hws; simpl in *; [congruence|].
      exact (Hadj i x y Hx Hy Hws).
    + intros _ x [= <-]. done.
Qed.

(** X16. A text that [normalizeText] returns neither starts nor ends
    with white space; every white-space unit in it is the ASCII space and
    is followed by a unit that is not white space; and it is no longer
    than the string [String(s || "")] it was made from. *)
Theorem normalizeText_shape (v : JSValue number) (t : jsstring) :
  normalizeText v = Some t ->
  (forall c, head t = Some c -> is_whitespace c = false) /\
  (forall c, last t = Some c -> is_whitespace c = false) /\
  (forall i c, t !! i = Some c -> is_whitespace c = true ->
     c = SPACE /\ forall d, t !! S i = Some d -> is_whitespace d = false) /\
  exists str,
    ToString (js_or v (JString [])) = Some str /\ (length t <= length str)%nat.
Proof.
  intros Hv. destruct (normalizeText_fixed v t Hv) as [Htrim _].
  pose proof Hv as (str & Hstr & Ht)%normalizeText_Some.
  destruct (replace_runs_spaced false (trim str)) as (Hall & Hadj & _).
  fold (replace_whitespace (trim str)) in Hall, Hadj. rewrite <- Ht in Hall, Hadj.
  assert (trimStart t = t /\ trimEnd t = t) as [Hs He].
  { rewrite <- Htrim. apply trim_fixed. }
  split; [|split; [|split]].
  - intros c Hc. destruct t as [|c' t']; [done|]. injection Hc as ->.
    simpl in Hs. destruct (is_whitespace c) eqn:Hws; [|done].
    pose proof (trimStart_length t') as Hlen. rewrite Hs in Hlen. simpl in Hlen. lia.
  - intros c Hc. clear -He Hc. revert c Hc.
    induction t as [|c' t' IH]; intros c Hc; [done|].
    apply trimEnd_cons in He as [He Hnil].
    destruct t' as [|d t']; [injection Hc as <-; by apply Hnil|].
    apply (IH He). by rewrite last_cons_cons in Hc.
  - intros i c Hc Hws. split.
    + rewrite Forall_lookup in Hall. exact (Hall i c Hc Hws).
    + intros d Hd. exact (Hadj i c d Hc Hd Hws).
  - exists str. split; [done|]. rewrite Ht. unfold replace_whitespace, trim.
    etrans; [apply replace_runs_length|]. etrans; [apply trimEnd_length|].
    apply trimStart_length.
Qed.

(** X17. For a [text] that is a string [s], the simple variant validates
    [s.trim()] and the full variant the white-space replacement of
    [s.trim()]; every text the simple variant accepts, the full variant
    accepts. *)
Theorem full_accepts_what_simple_accepts (parsed : JSValue number) s :
  get_text parsed = JString s ->
  Simple.trimmed_text parsed = Returned (trim s) /\
  normalizeText (get_text parsed) = Some (replace_whitespace (trim s)) /\
  (Simple.invalid_text (trim s) = false ->
   Full.invalid_text (replace_whitespace (trim s)) = false).
Proof.
  intros Htext.
  split; [|split].
  - unfold Simple.trimmed_text, js_or. rewrite Htext. by destruct s.
  - rewrite Htext. apply normalizeText_string.
  - unfold Simple.invalid_text. intros Hvalid.
    apply orb_false_iff in Hvalid as [Hne Hlen].
    apply bool_decide_eq_false in Hne. apply Nat.ltb_ge in Hlen.
    apply valid_text_spec.
    pose proof (replace_runs_length false (trim s)) as Hle.
    assert (replace_runs false (trim s) <> []) as Hnonempty.
    { apply replace_runs_nonempty; [apply trim_fixed | done]. }
    unfold replace_whitespace.
    destruct (replace_runs false (trim s)); [done|]. simpl in *. lia.
Qed.

End TextProperties.

(** ** The helpers *)

Section HelperProperties.
Context `{WebCrypto}.

Lemma padded_hex (b : Byte.byte) :
  padStart 2 48%N (toString16 b) =
    [hex_digit (Byte.to_N b / 16); hex_digit (Byte.to_N b mod 16)].
Proof. by destruct b. Qed.

Lemma hex_digit_inj (d d' : N) : hex_digit d = hex_digit d' -> d = d'.
Proof.
  unfold hex_digit. destruct (N.ltb_spec d 10), (N.ltb_spec d' 10); lia.
Qed.

Lemma hex_digit_lower (d : N) : (d < 16)%N -> is_lower_hex (hex_digit d).
Proof.
  intros Hd. unfold hex_digit, is_lower_hex. destruct (N.ltb_spec d 10); lia.
Qed.

Lemma padded_hex_inj (b b' : Byte.byte) :
  padStart 2 48%N (toString16 b) = padStart 2 48%N (toString16 b') -> b = b'.
Proof.
  rewrite !padded_hex. intros [= Hhi Hlo].
  apply hex_digit_inj in Hhi. apply hex_digit_inj in Hlo.
  assert (Byte.to_N b = Byte.to_N b') as Heq.
  { rewrite (N.div_mod (Byte.to_N b) 16), (N.div_mod (Byte.to_N b') 16) by done.
    by rewrite Hhi, Hlo. }
  pose proof (Byte.of_to_N b) as Hb. rewrite Heq, Byte.of_to_N in Hb. by injection Hb.
Qed.

Lemma foldl_append (f : Byte.byte -> jsstring) (acc : jsstring) (bytes : list Byte.byte) :
  foldl (fun hex b => hex ++ f b) acc bytes = acc ++ concat (List.map f bytes).
Proof.
  revert acc. induction bytes as [|b bytes IH]; intros acc; simpl.
  - by rewrite app_nil_r.
  - by rewrite IH, app_assoc.
Qed.

Lemma join_empty (xs : list jsstring) : join [] xs = concat xs.
Proof.
  induction xs as [|x [|y xs] IH]; simpl in *; [done| by rewrite app_nil_r |].
  by rewrite IH.
Qed.

Lemma sha256Hex_concat (input : jsstring) :
  sha256Hex input =
    concat (List.map (fun b => padStart 2 48%N (toString16 b))
              (digest_SHA256 (TextEncoder_encode input))).
Proof. unfold sha256Hex. by rewrite foldl_append. Qed.

Lemma hex_concat_inj (bs bs' : list Byte.byte) :
  concat (List.map (fun b => padStart 2 48%N (toString16 b)) bs) =
  concat (List.map (fun b => padStart 2 48%N (toString16 b)) bs') -> bs = bs'.
Proof.
  revert bs'. induction bs as [|b bs IH]; intros [|b' bs']; simpl.
  - done.
  - rewrite padded_hex. discriminate.
  - rewrite padded_hex. discriminate.
  - intros Heq. rewrite (padded_hex b), (padded_hex b') in Heq.
    injection Heq as Hhi Hlo Hrest.
    f_equal; [|by apply IH].
    apply padded_hex_inj. rewrite !padded_hex. by rewrite Hhi, Hlo.
Qed.

(** X18. The two ways [sha256Hex] is written, the loop with [hex += ...]
    of the unnamed file and [hashArray.map(...).join("")] of
    [functions/api/messages.js], return the same string on every input. *)
Theorem sha256Hex_variants_agree (input : jsstring) :
  Simple.sha256Hex input = sha256Hex input.
Proof.
  rewrite sha256Hex_concat. unfold Simple.sha256Hex. apply join_empty.
Qed.

(** X19. [sha256Hex] returns two units for every byte of the digest, each
    a digit of lower-case hexadecimal. *)
Theorem sha256Hex_lowercase_hex (input : jsstring) :
  length (sha256Hex input) = (2 * length (digest_SHA256 (TextEncoder_encode input)))%nat /\
  Forall is_lower_hex (sha256Hex input).
Proof.
  rewrite sha256Hex_concat.
  induction (digest_SHA256 (TextEncoder_encode input)) as [|b bytes [IHlen IHall]]; simpl.
  - done.
  - rewrite padded_hex. simpl. split; [lia|].
    constructor; [|constructor; [|done]]; apply hex_digit_lower.
    + apply N.Div0.div_lt_upper_bound. pose proof (Byte.to_N_bounded b). lia.
    + by apply N.mod_lt.
Qed.

(** X20. [sha256Hex] loses nothing of the digest: two inputs have the
    same hexadecimal string exactly when they have the same digest. *)
Theorem sha256Hex_injective_on_digests (input input' : jsstring) :
  sha256Hex input = sha256Hex input' <->
  digest_SHA256 (TextEncoder_encode input) = digest_SHA256 (TextEncoder_encode input').
Proof.
  rewrite !sha256Hex_concat. split; [apply hex_concat_inj | by intros ->].
Qed.

End HelperProperties.

Section ClientAddress.
Context {number : Type}.

Lemma split_comma_first_spec (x first : jsstring) :
  split_comma_first x = first <->
  exists rest, x = first ++ rest /\ (44%N ∉ first) /\ (rest = [] \/ head rest = Some 44%N).
Proof.
  revert first. induction x as [|c x IH]; intros first; simpl.
  - split.
    + intros <-. exists []. split; [done|]. split; [apply not_elem_of_nil | by left].
    + intros (rest & Hx & _). symmetry in Hx. by apply app_eq_nil in Hx as [-> _].
  - destruct (N.eqb_spec c 44) as [->|Hc].
    + split.
      * intros <-. exists (44%N :: x). split; [done|].
        split; [apply not_elem_of_nil | by right].
      * intros (rest & Hx & Hnot & Hrest). destruct first as [|d first]; [done|].
        injection Hx as <- _. exfalso. apply Hnot. by left.
    + split.
      * intros <-. destruct (proj1 (IH _) eq_refl) as (rest & Hx & Hnot & Hrest).
        exists rest. split; [simpl; by f_equal|]. split; [|done].
        rewrite not_elem_of_cons. split; [congruence | done].
      * intros (rest & Hx & Hnot & Hrest). destruct first as [|d first].
        -- simpl in Hx. subst rest. destruct Hrest as [?|Hh]; [done|].
           simpl in Hh. congruence.
        -- injection Hx as <- Hx. f_equal. apply IH. exists rest.
           split; [done|]. split; [|done]. by apply not_elem_of_cons in Hnot as [_ ?].
Qed.

Lemma forwarded_for_spec (xff : option jsstring) (ip : jsstring) :
  (if present xff then trim (split_comma_first (default [] xff)) else js "unknown") = ip <->
  (exists first rest,
     xff = Some (first ++ rest) /\ first ++ rest <> [] /\
     (44%N ∉ first) /\ (rest = [] \/ head rest = Some 44%N) /\ ip = trim first) \/
  (present xff = false /\ ip = js "unknown").
Proof.
  destruct xff as [[|c x]|]; simpl.
  - split; [by right|]. intros [(first & rest & [= Heq] & Hne & _) | [_ ->]]; [|done].
    by rewrite <- Heq in Hne.
  - split.
    + intros <-. left.
      destruct (proj1 (split_comma_first_spec (c :: x) _) eq_refl) as (rest & Hx & Hnot & Hrest).
      exists (split_comma_first (c :: x)), rest.
      split; [by rewrite <- Hx|]. split; [by rewrite <- Hx|]. done.
    + intros [(first & rest & [= Heq] & _ & Hnot & Hrest & ->) | [? _]]; [|done].
      f_equal. apply (proj2 (split_comma_first_spec (c :: x) first)). by exists rest.
  - split; [by right|]. by intros [(first & rest & ? & _) | [_ ->]].
Qed.

(** X21. What [getClientIp] returns: a non-empty [cf-connecting-ip]
    header, as it is; otherwise, of a non-empty [x-forwarded-for] header,
    the part before its first comma (the whole of it when it has none),
    trimmed, which may be the empty string; otherwise ["unknown"]. *)
Theorem getClientIp_spec (req : Request number) (ip : jsstring) :
  let cfip := headers_get (req_headers req) (js "cf-connecting-ip") in
  let xff := headers_get (req_headers req) (js "x-forwarded-for") in
  getClientIp req = ip <->
  (cfip = Some ip /\ ip <> []) \/
  (present cfip = false /\
   exists first rest,
     xff = Some (first ++ rest) /\ first ++ rest <> [] /\
     (44%N ∉ first) /\ (rest = [] \/ head rest = Some 44%N) /\ ip = trim first) \/
  (present cfip = false /\ present xff = false /\ ip = js "unknown").
Proof.
  cbv zeta. unfold getClientIp.
  destruct (headers_get (req_headers req) (js "cf-connecting-ip")) as [[|c cf]|] eqn:Hcf;
    cbn [present default]; rewrite ?forwarded_for_spec.
  - split.
    + intros [Hx | [Hp ->]]; [by right; left | by right; right].
    + intros [[[= <-] Hne] | [[_ Hx] | (_ & Hp & ->)]]; [done | by left | by right].
  - split.
    + intros <-. by left.
    + by intros [[[= <-] _] | [[? _] | [? _]]].
  - split.
    + intros [Hx | [Hp ->]]; [by right; left | by right; right].
    + intros [[? _] | [[_ Hx] | (_ & Hp & ->)]]; [done | by left | by right].
Qed.

End ClientAddress.

(** ** The simple variant *)

Section SimpleProperties.
Context {number : Type} `{JSNumber number} `{D1Engine} `{Runtime}.

Lemma trimmed_text_string (parsed : JSValue number) t :
  Simple.trimmed_text parsed = Returned t ->
  Simple.invalid_text t = false ->
  exists s, get_text parsed = JString s /\ t = trim s.
Proof.
  unfold Simple.trimmed_text, js_or. intros Ht Hv.
  destruct (truthy (get_text parsed)) eqn:Htruthy.
  - destruct (get_text parsed); try done. injection Ht as <-. by eexists.
  - injection Ht as <-. done.
Qed.

(** X22. With the binding present, an invocation of the simple variant
    leaves [messages] as it was or, for a POST of a string [s] answered
    200, appends exactly one row, with the text [s.trim()] of 1 to 50
    units and [created_at = now]. *)
Theorem simple_stores_trimmed_text (ctx : Context number) now db :
  DB (env ctx) = Some db ->
  exists db',
    DB (Simple.onRequest ctx now).2 = Some db' /\
    (messages db' = messages db \/
     method (request ctx) = js "POST" /\
     (Simple.onRequest ctx now).1 = Returned (Simple.respond OkTrue 200) /\
     exists s,
       get_text <$> json_body (request ctx) = Some (JString s) /\
       messages db' = messages db ++ [new_message db (trim s) now] /\
       (1 <= length (trim s) <= 50)%nat).
Proof.
  intros Hdb. unfold Simple.onRequest. cbv zeta. rewrite Hdb.
  repeat case_bool_decide; try (by exists db; split; [|left]).
  - storage_call db; eexists; (split; [done|]); by left.
  - destruct (json_body (request ctx)) as [parsed|]; [|by exists db; split; [|left]].
    destruct (Simple.trimmed_text parsed) as [t|err] eqn:Ht; [|by exists db; split; [|left]].
    destruct (Simple.invalid_text t) eqn:Hv; [by exists db; split; [|left]|].
    destruct (trimmed_text_string parsed t Ht Hv) as (s & Hs & ->).
    assert (1 <= length (trim s) <= 50)%nat as Hlen.
    { unfold Simple.invalid_text in Hv. apply orb_false_iff in Hv as [Hne Hlen].
      apply bool_decide_eq_false in Hne. apply Nat.ltb_ge in Hlen.
      split; [|done]. destruct (trim s); [done | simpl; lia]. }
    storage_call db; eexists; (split; [done|]); [by left|..];
      right; (split; [done|]); (split; [done|]); exists s; rewrite Hs; done.
Qed.

(** X23. Every response the simple variant returns carries
    [Access-Control-Allow-Origin: *], whatever the request's origin; its
    status agrees with the envelope: [ok: true] comes with 200,
    [ok: false] with 400 or 405, and only the answer to OPTIONS has no
    body. *)
Theorem simple_answers_any_origin (ctx : Context number) now r :
  (Simple.onRequest ctx now).1 = Returned r ->
  (js "Access-Control-Allow-Origin", js "*") ∈ headers r /\
  match ok (body r) with
  | Some true => status r = 200
  | Some false => status r ∈ [400; 405]
  | None => status r = 200 /\ method (request ctx) = js "OPTIONS"
  end.
Proof.
  unfold Simple.onRequest. cbv zeta.
  assert (forall b st, (js "Access-Control-Allow-Origin", js "*")
                         ∈ headers (Simple.respond b st)) as Hcors.
  { intros b st. simpl. right. by left. }
  repeat case_bool_decide.
  - intros [= <-]. simpl. split; [by left | done].
  - destruct (DB (env ctx)) as [db|]; [|done].
    storage_call db; [done|..]; intros [= <-]; (split; [apply Hcors | done]).
  - destruct (json_body (request ctx)) as [parsed|];
      [|intros [= <-]; split; [apply Hcors | simpl; by left]].
    destruct (Simple.trimmed_text parsed) as [t|err]; [|done].
    destruct (Simple.invalid_text t);
      [intros [= <-]; split; [apply Hcors | simpl; by left]|].
    destruct (DB (env ctx)) as [db|]; [|done].
    storage_call db; [done|..]; intros [= <-]; (split; [apply Hcors | done]).
  - intros [= <-]. split; [apply Hcors | simpl; right; by left].
Qed.

End SimpleProperties.

(** * Concrete runs *)

Example spec_example_created :
  status hello.1 = 200 /\ body hello.1 = OkTrue /\
  messages <$> DB hello.2 =
    Some [{| id := 1; text := js "hello world"; created_at := 100000 |}].
Proof. by vm_compute. Qed.

Example spec_example_throttled :
  status again_at_once.1 = 429 /\
  body again_at_once.1 = TooMany (js "Too many requests") 29999 /\
  (js "Retry-After", js "30") ∈ headers again_at_once.1.
Proof.
  split; [by vm_compute|]. split; [by vm_compute|].
  apply (bool_decide_unpack _). by vm_compute.
Qed.

Example spec_example_after_window :
  status again_later.1 = 200 /\
  (fun db => text <$> messages db) <$> DB again_later.2 =
    Some [js "hello world"; js "again"].
Proof. by vm_compute. Qed.

Example spec_example_empty_text :
  (Full.onRequest (arriving empty_db (POST_text client "")) 100000).1 =
  Full.json (Failure (js "Text must be 1-50 chars")) 400 [].
Proof. by vm_compute. Qed.

Example spec_example_not_json :
  (Full.onRequest (arriving empty_db (POST_malformed client)) 100000).1 =
  Full.json (Failure (js "Invalid JSON")) 400 [].
Proof. by vm_compute. Qed.

(** The length that validation measures is [text.length], in UTF-16 code
    units: 26 characters that take two units each are refused. *)
Example length_counts_code_units :
  length <$> normalizeText (JString astral_text : JSValue Z) = Some 52%nat /\
  (Full.onRequest astral_visit 100000).1 =
  Full.json (Failure (js "Text must be 1-50 chars")) 400 [].
Proof. by vm_compute. Qed.

(** [String(_)] of values parsed from JSON: an array joins its elements,
    an object without an own [toString] is ["[object Object]"], and an
    object with one, alone or inside an array, makes [String(_)] throw. *)
Example String_of_parsed_values :
  ToString (JArray [JNull; JNumber 1; JArray [JString (js "a"); JBool true]; JObject []]
              : JSValue Z) = Some (js ",1,a,true,[object Object]") /\
  ToString (JObject [(js "toString", JNumber 1)] : JSValue Z) = None /\
  ToString (JArray [JString (js "a"); JObject [(js "toString", JNull)]] : JSValue Z) = None.
Proof. by vm_compute. Qed.

(** A POST of [{ "text": { "toString": 1 } }] on an empty database: the
    attempt is recorded, [String(_)] throws, and the [catch] answers. *)
Example text_with_own_toString :
  status (Full.onRequest unprintable_visit 100000).1 = 500 /\
  body (Full.onRequest unprintable_visit 100000).1 =
    FailureDetail (js "Server error on POST") (js "Cannot convert object to primitive value") /\
  messages <$> DB (Full.onRequest unprintable_visit 100000).2 = Some [].
Proof. by vm_compute. Qed.

(** ** The theorems at concrete requests *)

Lemma empty_db_no_fault : no_fault empty_db.
Proof. constructor. Defined.

Lemma rate_limit_decision_witness :
  method (request first_visit) = js "POST" /\
  DB (env first_visit) = Some empty_db /\
  no_fault empty_db /\
  status (Full.onRequest first_visit 100000).1 <> 429 /\
  rate_limits <$> DB (Full.onRequest first_visit 100000).2 =
    Some (<[Full.ipHash (request first_visit) (env first_visit) := 100000]> ∅).
Proof.
  split; [reflexivity|]. split; [reflexivity|]. split; [exact empty_db_no_fault|].
  apply (rate_limit_decision first_visit 100000 empty_db eq_refl eq_refl empty_db_no_fault).
  left. reflexivity.
Defined.

Lemma valid_POST_creates_message_witness :
  method (request first_visit) = js "POST" /\
  normalizeText (get_text (JObject [(js "text", JString (js "hello"))] : JSValue Z)) =
    Some (js "hello") /\
  (1 <= length (js "hello") <= 50)%nat /\
  status (Full.onRequest first_visit 100000).1 = 200 /\
  exists rows,
    body (Full.onRequest (following (Full.onRequest first_visit 100000) GET_messages)
            100005).1 = OkData rows /\
    {| id := 1; text := js "hello"; created_at := 100000 |} ∈ rows.
Proof.
  assert (1 <= length (js "hello") <= 50)%nat as Hlen by (vm_compute; lia).
  destruct (valid_POST_creates_message first_visit 100000 empty_db
              (JObject [(js "text", JString (js "hello"))]) (js "hello")
              eq_refl eq_refl empty_db_no_fault eq_refl eq_refl Hlen)
    as (Hstatus & _ & _ & Hget).
  { intros last_ts Hrow. discriminate Hrow. }
  split; [reflexivity|]. split; [reflexivity|]. split; [exact Hlen|].
  split; [exact Hstatus|].
  destruct (Hget (following (Full.onRequest first_visit 100000) GET_messages) 100005
              eq_refl eq_refl) as (rows & _ & Hbody & Hin).
  { vm_compute. lia. }
  exists rows. split; [exact Hbody | exact Hin].
Defined.

Lemma invalid_text_POST_refused_witness :
  method (request empty_text_visit) = js "POST" /\
  normalizeText (get_text (JObject [(js "text", JString (js "   "))] : JSValue Z)) =
    Some [] /\
  messages <$> DB (Full.onRequest empty_text_visit 100000).2 = Some [] /\
  status (Full.onRequest empty_text_visit 100000).1 = 400.
Proof.
  destruct (invalid_text_POST_refused empty_text_visit 100000
              (JObject [(js "text", JString (js "   "))]) []
              eq_refl eq_refl eq_refl (or_introl eq_refl)) as [Hrows Hstatus].
  split; [reflexivity|]. split; [reflexivity|]. split; [exact Hrows|].
  apply (Hstatus empty_db eq_refl empty_db_no_fault).
  intros last_ts Hrow. discriminate Hrow.
Defined.

Lemma throttled_POST_changes_nothing_witness :
  method (request recorded_visit) = js "POST" /\
  rate_limits recorded_db !! Full.ipHash (request recorded_visit) (env recorded_visit) =
    Some 100000 /\
  100001 - 100000 < 30000 /\
  status (Full.onRequest recorded_visit 100001).1 = 429 /\
  rate_limits <$> DB (Full.onRequest recorded_visit 100001).2 = Some (rate_limits recorded_db) /\
  messages <$> DB (Full.onRequest recorded_visit 100001).2 = Some (messages recorded_db).
Proof.
  assert (rate_limits recorded_db !! Full.ipHash (request recorded_visit) (env recorded_visit)
          = Some 100000) as Hrow by (vm_compute; reflexivity).
  assert (100000 <> 0) as Hnz by discriminate.
  assert (100001 - 100000 < 30000) as Hlt by lia.
  destruct (throttled_POST_changes_nothing recorded_visit 100001 recorded_db 100000
              eq_refl eq_refl Hrow Hnz Hlt) as (Hrl & Hms & H429 & _).
  split; [reflexivity|]. split; [exact Hrow|]. split; [exact Hlt|].
  split; [apply H429; intros err; discriminate|]. split; [exact Hrl | exact Hms].
Defined.

Lemma only_full_variant_limits_rate_witness :
  status (Full.onRequest recorded_visit 100001).1 = 429 /\
  (Simple.onRequest recorded_visit 100001).1 = Returned (Simple.respond OkTrue 200) /\
  forall r, (Simple.onRequest recorded_visit 100001).1 = Returned r -> status r <> 429.
Proof.
  destruct (only_full_variant_limits_rate recorded_visit 100001)
    as [(_ & _ & Hsimple) [Hfull _]].
  assert (no_fault recorded_db) as Hf by constructor.
  destruct (Hfull recorded_db eq_refl eq_refl Hf) as [Hthrottle _].
  split; [|split; [vm_compute; reflexivity | exact Hsimple]].
  apply (Hthrottle 100000); [vm_compute; reflexivity | discriminate | lia].
Defined.

Lemma throttled_response_shape_witness :
  method (request second_visit) = js "POST" /\
  status (Full.onRequest second_visit 100001).1 = 429 /\
  exists retry_after_ms secs,
    body (Full.onRequest second_visit 100001).1 =
      TooMany (js "Too many requests") retry_after_ms /\
    1000 * (secs - 1) < retry_after_ms <= 1000 * secs /\
    (js "Retry-After", Z_to_string secs) ∈ headers (Full.onRequest second_visit 100001).1.
Proof.
  assert (status (Full.onRequest second_visit 100001).1 = 429) as Hs by (vm_compute; reflexivity).
  split; [reflexivity|]. split; [exact Hs|].
  destruct (throttled_response_shape second_visit 100001 eq_refl Hs)
    as (ms & secs & Hbody & Hceil & Hheader & _).
  exists ms, secs. split; [exact Hbody|]. split; [exact Hceil | exact Hheader].
Defined.

Lemma refused_POST_starts_window_witness :
  method (request empty_text_visit) = js "POST" /\
  normalizeText (get_text (JObject [(js "text", JString (js "   "))] : JSValue Z)) =
    Some [] /\
  status (Full.onRequest empty_text_visit 100000).1 = 400 /\
  status (Full.onRequest (following (Full.onRequest empty_text_visit 100000)
                            (POST_text client "hello")) 100500).1 = 429.
Proof.
  destruct (refused_POST_starts_window empty_text_visit 100000 empty_db
              eq_refl eq_refl empty_db_no_fault (or_introl eq_refl)) as [_ Hrefused].
  destruct Hrefused as (Hstatus & _ & Hnext).
  { right. exists (JObject [(js "text", JString (js "   "))]), [].
    split; [reflexivity|]. split; [reflexivity|]. left. reflexivity. }
  split; [reflexivity|]. split; [reflexivity|]. split; [exact Hstatus|].
  apply (Hnext (following (Full.onRequest empty_text_visit 100000) (POST_text client "hello"))
           100500 eq_refl eq_refl eq_refl); [discriminate | reflexivity].
Defined.

Lemma GET_returns_latest_ten_witness :
  method (request (following again_later GET_messages)) = js "GET" /\
  status (Full.onRequest (following again_later GET_messages) 130001).1 = 200 /\
  exists rows,
    body (Full.onRequest (following again_later GET_messages) 130001).1 = OkData rows /\
    (length rows <= 10)%nat /\ newest_first rows.
Proof.
  assert (status (Full.onRequest (following again_later GET_messages) 130001).1 = 200)
    as Hs by (vm_compute; reflexivity).
  split; [reflexivity|]. split; [exact Hs|].
  destruct (GET_returns_latest_ten (following again_later GET_messages) 130001 eq_refl)
    as [Hfull _].
  exact (Hfull Hs).
Defined.

Lemma other_methods_not_allowed_witness :
  method (request DELETE_visit) <> js "OPTIONS" /\
  method (request DELETE_visit) <> js "GET" /\
  method (request DELETE_visit) <> js "POST" /\
  status (Full.onRequest DELETE_visit 100000).1 = 405.
Proof.
  assert (method (request DELETE_visit) <> js "OPTIONS") as Ho by discriminate.
  assert (method (request DELETE_visit) <> js "GET") as Hg by discriminate.
  assert (method (request DELETE_visit) <> js "POST") as Hp by discriminate.
  split; [exact Ho|]. split; [exact Hg|]. split; [exact Hp|].
  destruct (other_methods_not_allowed DELETE_visit 100000 Ho Hg Hp) as [_ Hfull].
  rewrite (Hfull empty_db eq_refl). reflexivity.
Defined.

Lemma storage_failure_is_server_error_witness :
  head (faults failing_db) = Some (Some outage) /\
  status (Full.onRequest (arriving failing_db (POST_text client "hello")) 100000).1 = 500 /\
  body (Full.onRequest (arriving failing_db (POST_text client "hello")) 100000).1 =
    FailureDetail (js "Server error on POST") (js "D1_ERROR").
Proof.
  split; [reflexivity|].
  destruct (storage_failure_is_server_error
              (arriving failing_db (POST_text client "hello")) 100000 failing_db outage
              eq_refl eq_refl (or_introl eq_refl)) as (Hstatus & Hbody & _).
  split; [exact Hstatus | exact Hbody].
Defined.

Lemma request_writes_only_own_key_witness :
  DB (env first_visit) = Some empty_db /\
  exists db',
    DB (Full.onRequest first_visit 100000).2 = Some db' /\
    forall k, k <> client_key -> rate_limits db' !! k = rate_limits empty_db !! k.
Proof.
  split; [reflexivity|].
  destruct (request_writes_only_own_key first_visit 100000 empty_db eq_refl)
    as (db' & Hdb' & Hother & _).
  exists db'. split; [exact Hdb' | exact Hother].
Defined.

Lemma messages_append_only_witness :
  DB (env first_visit) = Some empty_db /\
  exists db',
    DB (Full.onRequest first_visit 100000).2 = Some db' /\
    (messages db' = messages empty_db \/
     method (request first_visit) = js "POST" /\
     status (Full.onRequest first_visit 100000).1 = 200 /\
     exists row,
       messages db' = messages empty_db ++ [row] /\
       id row = next_id (messages empty_db) /\ created_at row = 100000 /\
       stored_text_ok row).
Proof.
  split; [reflexivity|].
  exact (messages_append_only first_visit 100000 empty_db eq_refl).
Defined.

Lemma serving_keeps_stored_messages_witness :
  DB (env first_visit) = Some empty_db /\
  exists db',
    DB (serve (env first_visit) three_requests).2 = Some db' /\
    (length (messages db') <= 3)%nat /\
    Forall stored_text_ok (messages db').
Proof.
  split; [reflexivity|].
  destruct (serving_keeps_stored_messages (env first_visit) three_requests empty_db eq_refl)
    as (db' & Hdb' & _ & Hlen & Hok).
  exists db'. split; [exact Hdb'|]. split; [exact Hlen|]. apply Hok. constructor.
Defined.

Lemma retries_do_not_extend_window_witness :
  rate_limits recorded_db !! client_key = Some 100000 /\
  Forall (fun retry => method retry.1 = js "POST" /\
                       Full.ipHash retry.1 recorded_env = client_key /\
                       retry.2 - 100000 < 30000) retries /\
  Forall (fun r => status r = 429) (serve recorded_env retries).1 /\
  status (Full.onRequest
            {| request := POST_text client "later"; env := (serve recorded_env retries).2 |}
            130000).1 <> 429.
Proof.
  assert (rate_limits recorded_db !! client_key = Some 100000) as Hrow
    by (vm_compute; reflexivity).
  assert (Forall (fun retry => method retry.1 = js "POST" /\
                               Full.ipHash retry.1 recorded_env = client_key /\
                               retry.2 - 100000 < 30000) retries) as Hall.
  { repeat constructor; simpl; lia. }
  assert (100000 <> 0) as Hnz by discriminate.
  assert (no_fault recorded_db) as Hf by constructor.
  destruct (retries_do_not_extend_window recorded_env recorded_db client_key 100000 retries
              eq_refl Hf Hrow Hnz Hall) as (_ & H429 & _ & Hnext).
  split; [exact Hrow|]. split; [exact Hall|]. split; [exact H429|].
  apply (Hnext (POST_text client "later") 130000 eq_refl eq_refl). lia.
Defined.

Lemma insert_failure_keeps_attempt_witness :
  faults failing_insert_db = [None; None; Some outage] /\
  body (Full.onRequest (arriving failing_insert_db (POST_text client "hello")) 100000).1 =
    FailureDetail (js "Server error on POST") (js "D1_ERROR") /\
  exists db',
    DB (Full.onRequest (arriving failing_insert_db (POST_text client "hello")) 100000).2 =
      Some db' /\
    messages db' = [] /\ rate_limits db' = {[ client_key := 100000 ]}.
Proof.
  split; [reflexivity|].
  destruct (insert_failure_keeps_attempt
              (arriving failing_insert_db (POST_text client "hello")) 100000
              failing_insert_db (JObject [(js "text", JString (js "hello"))]) (js "hello")
              outage [] eq_refl eq_refl eq_refl eq_refl eq_refl eq_refl eq_refl)
    as (Hresp & db' & Hdb' & Hms & Hrl).
  split; [rewrite Hresp; reflexivity|].
  exists db'. split; [exact Hdb'|]. split; [exact Hms | exact Hrl].
Defined.

Lemma GET_storage_failure_witness :
  head (faults failing_db) = Some (Some outage) /\
  status (Full.onRequest (arriving failing_db GET_messages) 100000).1 = 500 /\
  (Simple.onRequest (arriving failing_db GET_messages) 100000).1 = Thrown outage.
Proof.
  split; [reflexivity|].
  destruct (GET_storage_failure (arriving failing_db GET_messages) 100000 failing_db outage
              eq_refl eq_refl eq_refl) as (Hfull & Hsimple & _).
  split; [rewrite Hfull; reflexivity | exact Hsimple].
Defined.

Lemma missing_binding_witness :
  DB (env unbound_visit) = None /\
  method (request unbound_visit) <> js "OPTIONS" /\
  status (Full.onRequest unbound_visit 100000).1 = 500 /\
  exists e, (Simple.onRequest unbound_visit 100000).1 = Thrown e /\ name e = js "TypeError".
Proof.
  assert (method (request unbound_visit) <> js "OPTIONS") as Ho by discriminate.
  split; [reflexivity|]. split; [exact Ho|].
  destruct (missing_binding unbound_visit 100000 eq_refl Ho) as (Hfull & _ & Hget & _).
  split; [rewrite Hfull; reflexivity | exact (Hget eq_refl)].
Defined.

Lemma GET_lists_the_most_recent_witness :
  method (request (arriving busy_db GET_messages)) = js "GET" /\
  body (Full.onRequest (arriving busy_db GET_messages) 100000).1 =
    OkData (take 10 (order_by_created_at_desc ten_newer_rows)) /\
  exists omitted,
    take 10 (order_by_created_at_desc ten_newer_rows) ++ omitted ≡ₚ ten_newer_rows.
Proof.
  assert (body (Full.onRequest (arriving busy_db GET_messages) 100000).1 =
            OkData (take 10 (order_by_created_at_desc ten_newer_rows))) as Hbody
    by (vm_compute; reflexivity).
  split; [reflexivity|]. split; [exact Hbody|].
  destruct (GET_lists_the_most_recent (arriving busy_db GET_messages) 100000 busy_db
              (take 10 (order_by_created_at_desc ten_newer_rows)) eq_refl eq_refl Hbody)
    as [(omitted & Hperm & _) _].
  exists omitted. exact Hperm.
Defined.

Lemma simple_refuses_before_storage_witness :
  method (request malformed_visit) = js "POST" /\
  json_body (request malformed_visit) = None /\
  Simple.onRequest malformed_visit 100000 =
    (Returned (Simple.respond (Failure (js "Invalid JSON")) 400), env malformed_visit).
Proof.
  split; [reflexivity|]. split; [reflexivity|].
  destruct (simple_refuses_before_storage malformed_visit 100000 eq_refl) as [Hmalformed _].
  exact (Hmalformed eq_refl).
Defined.

Lemma simple_throws_on_text_that_is_no_string_witness :
  method (request flag_visit) = js "POST" /\
  truthy (get_text flag_body) = true /\
  exists e,
    Simple.onRequest flag_visit 100000 = (Thrown e, env flag_visit) /\
    name e = js "TypeError".
Proof.
  split; [reflexivity|]. split; [reflexivity|].
  apply (simple_throws_on_text_that_is_no_string flag_visit 100000 flag_body
           eq_refl eq_refl eq_refl).
  intros s Hs. discriminate Hs.
Defined.

Lemma full_stringifies_text_that_is_no_string_witness :
  method (request flag_visit) = js "POST" /\
  get_text flag_body = JBool true /\
  status (Full.onRequest flag_visit 100000).1 = 200.
Proof.
  split; [reflexivity|]. split; [reflexivity|].
  destruct (full_stringifies_text_that_is_no_string flag_visit 100000 empty_db flag_body
              eq_refl eq_refl empty_db_no_fault eq_refl eq_refl (or_intror eq_refl))
    as [Hstatus _].
  exact Hstatus.
Defined.

Lemma full_accepts_what_simple_accepts_witness :
  get_text (JObject [(js "text", JString (js " a  b "))] : JSValue Z) = JString (js " a  b ") /\
  Simple.invalid_text (trim (js " a  b ")) = false /\
  Full.invalid_text (replace_whitespace (trim (js " a  b "))) = false.
Proof.
  split; [reflexivity|]. split; [reflexivity|].
  destruct (full_accepts_what_simple_accepts
              (JObject [(js "text", JString (js " a  b "))] : JSValue Z) (js " a  b ") eq_refl)
    as (_ & _ & Haccepts).
  apply Haccepts. reflexivity.
Defined.

Lemma normalizeText_shape_witness :
  normalizeText (JString (js " a  b ") : JSValue Z) = Some (js "a b") /\
  forall c, head (js "a b") = Some c -> is_whitespace c = false.
Proof.
  split; [reflexivity|].
  destruct (normalizeText_shape (JString (js " a  b ") : JSValue Z) (js "a b") eq_refl)
    as [Hhead _].
  exact Hhead.
Defined.

Lemma text_without_string_is_server_error_witness :
  method (request unprintable_visit) = js "POST" /\
  has_own_property (js "toString") [(js "toString", JNumber 1 : JSValue Z)] = true /\
  status (Full.onRequest unprintable_visit 100000).1 = 500 /\
  body (Full.onRequest unprintable_visit 100000).1 =
    FailureDetail (js "Server error on POST")
      (js "Cannot convert object to primitive value") /\
  exists db',
    DB (Full.onRequest unprintable_visit 100000).2 = Some db' /\ messages db' = [].
Proof.
  split; [reflexivity|]. split; [reflexivity|].
  destruct (text_without_string_is_server_error unprintable_visit 100000 empty_db
              unprintable_body [(js "toString", JNumber 1)]
              eq_refl eq_refl empty_db_no_fault eq_refl eq_refl eq_refl (or_introl eq_refl))
    as (Hresp & db' & Hdb' & Hms & _).
  split; [rewrite Hresp; reflexivity|]. split; [rewrite Hresp; reflexivity|].
  exists db'. split; [exact Hdb' | exact Hms].
Defined.

Lemma simple_stores_trimmed_text_witness :
  DB (env first_visit) = Some empty_db /\
  exists db',
    DB (Simple.onRequest first_visit 100000).2 = Some db' /\
    (length (messages db') <= 1)%nat.
Proof.
  split; [reflexivity|].
  destruct (simple_stores_trimmed_text first_visit 100000 empty_db eq_refl)
    as (db' & Hdb' & [Hms | (_ & _ & s & _ & Hms & _)]);
    exists db'; (split; [exact Hdb'|]); rewrite Hms; simpl; lia.
Defined.

Lemma simple_answers_any_origin_witness :
  (Simple.onRequest first_visit 100000).1 = Returned (Simple.respond OkTrue 200) /\
  (js "Access-Control-Allow-Origin", js "*") ∈ headers (Simple.respond OkTrue 200).
Proof.
  assert ((Simple.onRequest first_visit 100000).1 = Returned (Simple.respond OkTrue 200))
    as Hr by (vm_compute; reflexivity).
  split; [exact Hr|].
  destruct (simple_answers_any_origin first_visit 100000 _ Hr) as [Hcors _].
  exact Hcors.
Defined.

(** ** Where the specification's sentences do not hold *)

(** C1 as stated bounds [retry_after_ms] by 30000 for every throttled
    POST. The clock of an invocation is [Date.now()], which may read
    earlier than the stored [last_ts]: of two POSTs of one key within
    30000 ms of each other, the second made at a clock reading 10000 ms
    behind the first is answered 429 with [retry_after_ms = 40000]. *)
Lemma retry_after_exceeds_window :
  status hello.1 = 200 /\
  rate_limits <$> DB hello.2 =
    Some {[ Full.ipHash (POST_text client "again") hello.2 := 100000 ]} /\
  90000 - 100000 < 30000 /\
  status behind_the_clock.1 = 429 /\
  body behind_the_clock.1 = TooMany (js "Too many requests") 40000 /\
  ~ 40000 <= 30000.
Proof.
  split; [by vm_compute|]. split; [by vm_compute|]. split; [lia|].
  split; [by vm_compute|]. split; [by vm_compute | lia].
Qed.

(** C1 as stated throttles whenever an entry is present and [now -
    last_ts < 30000]. A stored [last_ts] of [0] fails the truthiness test
    of the handler and is treated as no entry. *)
Example stored_zero_is_no_entry :
  rate_limits epoch_db !! Full.ipHash (POST_text client "hello") (env first_visit) = Some 0 /\
  5 - 0 < 30000 /\
  status (Full.onRequest (arriving epoch_db (POST_text client "hello")) 5).1 = 200.
Proof. split; [by vm_compute|]. split; [lia | by vm_compute]. Qed.

(** C4 as stated has both tables unchanged whenever an entry is present
    for the key and [now - last_ts < 30000]. A stored [last_ts] of [0] is
    such an entry 5 ms later, yet the POST is let through: a row is
    inserted and the stored [last_ts] becomes [5]. *)
Lemma zero_entry_POST_changes_tables :
  rate_limits epoch_db !! client_key = Some 0 /\
  5 - 0 < 30000 /\
  messages epoch_db = [] /\
  status (Full.onRequest (arriving epoch_db (POST_text client "hello")) 5).1 = 200 /\
  messages <$> DB (Full.onRequest (arriving epoch_db (POST_text client "hello")) 5).2 =
    Some [{| id := 1; text := js "hello"; created_at := 5 |}] /\
  (DB (Full.onRequest (arriving epoch_db (POST_text client "hello")) 5).2
     ≫= fun db => rate_limits db !! client_key) = Some 5.
Proof.
  split; [by vm_compute|]. split; [lia|]. split; [done|].
  split; [by vm_compute|]. split; by vm_compute.
Qed.

(** C2 as stated has every created message returned by a GET that
    follows. With ten stored rows more recent than the clock reading of
    the POST, the created row is the eleventh by recency and the GET does
    not return it. *)
Lemma created_message_not_listed :
  no_fault busy_db /\
  status late_post.1 = 200 /\
  messages <$> DB late_post.2 =
    Some (ten_newer_rows ++ [{| id := 11; text := js "hello"; created_at := 1000 |}]) /\
  status get_after_late_post.1 = 200 /\
  exists rows,
    body get_after_late_post.1 = OkData rows /\
    {| id := 11; text := js "hello"; created_at := 1000 |} ∉ rows.
Proof.
  split; [constructor|]. split; [by vm_compute|]. split; [by vm_compute|].
  split; [by vm_compute|].
  eexists. split; [by vm_compute|].
  apply (bool_decide_unpack _). by vm_compute.
Qed.

(** C3 as stated answers 400 to every POST with an invalid text. The rate
    limit is checked first: a throttled POST with an empty text is
    answered 429. *)
Lemma invalid_text_answered_429 :
  json_body (POST_text client "") = Some (JObject [(js "text", JString (js ""))]) /\
  normalizeText (get_text (JObject [(js "text", JString (js ""))]) : JSValue Z) = Some [] /\
  status empty_text_at_once.1 = 429 /\
  status empty_text_at_once.1 <> 400.
Proof. split; [done|]. split; [done|]. split; by vm_compute. Qed.

(** C5 as stated throttles every POST that follows a refused one within
    30000 ms. After a request refused at clock reading [0] the stored
    [last_ts] is [0], and the following POST is let through. *)
Lemma following_POST_not_throttled :
  status refused_at_epoch.1 = 400 /\
  messages <$> DB refused_at_epoch.2 = Some [] /\
  Full.ipHash (POST_text client "hello") refused_at_epoch.2 =
    Full.ipHash (POST_malformed client) (env (arriving empty_db (POST_malformed client))) /\
  5 - 0 < 30000 /\
  status next_after_epoch.1 = 200 /\
  status next_after_epoch.1 <> 429.
Proof.
  split; [by vm_compute|]. split; [by vm_compute|]. split; [by vm_compute|].
  split; [lia|]. split; by vm_compute.
Qed.

(** C6 as stated has both variants implement the rate limiter. The simple
    variant accepts two POSTs of one client one millisecond apart, and
    leaves the table [rate_limits] empty. *)
Lemma simple_variant_does_not_throttle :
  simple_first.1 = Returned (Simple.respond OkTrue 200) /\
  simple_second.1 = Returned (Simple.respond OkTrue 200) /\
  (fun db => text <$> messages db) <$> DB simple_second.2 = Some [js "hello"; js "again"] /\
  rate_limits <$> DB simple_second.2 = Some ∅.
Proof. by vm_compute. Qed.
